(** * BubbleTender: the beverage-shop controller and its cart view

    A shallow embedding of [main.go]: the [model] struct, [initialModel],
    [model.Update], [model.cartView] and [model.View], followed by the
    properties of the controller (state machine) and of the renderer.

    Conventions.
    - Go's [int] is a 64-bit integer: it is a [Z], and [++] / [--] are written
      with their wrap-around ([int_wrap]).
    - Go's [float64] is IEEE binary64: it is Rocq's primitive [float], whose
      operations round to nearest, ties to even, as Go's do.
    - The cart is a Go [map[int]int]: a [gmap Z Z].  Reading an absent key
      yields 0 and does not insert.  A [range] over the map visits the entries
      in an order the language leaves unspecified; a loop whose result depends
      on that order takes the visiting order as an argument.
    - A run-time panic (index out of range) is [None].
    - The table widget and the styling library are external packages: they are
      interfaces ([Table], [Lipgloss]) whose laws record what the program
      relies on. *)

From Stdlib Require Import ZArith QArith Floats String Ascii List.
From stdpp Require Import base decidable option list gmap strings pretty.

Local Open Scope string_scope.
Local Open Scope Z_scope.

(** ** Go's [fmt] verbs used by the program *)

Module Fmt.

Definition LF : string := String (ascii_of_nat 10) EmptyString.

(** [%d] on an [int]. *)
Definition d (x : Z) : string := pretty x.

(** A count of hundredths, printed as [<units>.<two digits>]. *)
Definition show_cents (c : Z) : string :=
  let frac := c mod 100 in
  d (c / 100) +:+ "." +:+ (if frac <? 10 then "0" else "") +:+ d frac.

Definition show_signed (sc : bool * Z) : string :=
  (if sc.1 then "-" else "") +:+ show_cents sc.2.

(** Nearest integer to [n / dn] for [0 <= n], [0 < dn], ties to even. *)
Definition round_half_even (n dn : Z) : Z :=
  let k := n / dn in
  let r := n mod dn in
  if 2 * r <? dn then k
  else if dn <? 2 * r then k + 1
  else if Z.even k then k else k + 1.

(** Sign and hundredths of a rational, correctly rounded. *)
Definition Q_cents (q : Q) : bool * Z :=
  (Qnum q <? 0, round_half_even (100 * Z.abs (Qnum q)) (Zpos (Qden q))).

(** The exact value [m * 2^e] of a finite binary float. *)
Definition Q_of_SF (m : positive) (e : Z) : Q :=
  if 0 <=? e then inject_Z (Zpos m * 2 ^ e)
  else Qmake (Zpos m) (2 ^ Z.to_pos (- e))%positive.

(** Sign and hundredths of a finite float; [None] on NaN and infinities. *)
Definition float_cents (x : float) : option (bool * Z) :=
  match Prim2SF x with
  | S754_zero s => Some (s, 0)
  | S754_finite s m e => Some (s, (Q_cents (Q_of_SF m e)).2)
  | S754_infinity _ | S754_nan => None
  end.

(** [%.2f] on a [float64]: the decimal expansion of the exact binary value,
    rounded to two places (strconv rounds the exact value, ties to even). *)
Definition f2 (x : float) : string :=
  match float_cents x with
  | Some sc => show_signed sc
  | None =>
      match Prim2SF x with
      | S754_infinity false => "+Inf"
      | S754_infinity true => "-Inf"
      | _ => "NaN"
      end
  end.

(** The same rendering of an exact rational amount. *)
Definition Q2 (q : Q) : string := show_signed (Q_cents q).

(** Runes of a UTF-8 string: the bytes that are not continuation bytes. *)
Fixpoint rune_count (s : string) : nat :=
  match s with
  | EmptyString => O
  | String c rest =>
      let continuation := Z.land (Z.of_nat (nat_of_ascii c)) 192 =? 128 in
      ((if continuation then 0 else 1) + rune_count rest)%nat
  end.

Fixpoint spaces (n : nat) : string :=
  match n with
  | O => ""
  | S n' => " " +:+ spaces n'
  end.

(** [%-20s]: left-justified, padded with spaces to twenty runes. *)
Definition s_left20 (s : string) : string :=
  s +:+ spaces (20 - rune_count s).

End Fmt.

(** ** Numbers *)

Definition int_wrap (x : Z) : Z := (x + 2 ^ 63) mod 2 ^ 64 - 2 ^ 63.

(** [float64(q)] for an [int] [q]: the nearest binary64. *)
Definition float64_of_int (q : Z) : float :=
  SF2Prim (binary_normalize prec emax q 0 false).

(** The exact rational value of a finite float (0 on NaN and infinities). *)
Definition float_exact (x : float) : Q :=
  match Prim2SF x with
  | S754_finite s m e =>
      if s then Qopp (Fmt.Q_of_SF m e) else Fmt.Q_of_SF m e
  | _ => 0%Q
  end.

(** ** Data *)

Record Beverage := mkBeverage {
  Name : string;
  Price : float;
  Stock : Z
}.

Definition ourBeverages : list Beverage :=
  [ mkBeverage "Club-Mate" 1.5%float 24;
    mkBeverage "Espresso" 1%float 50;
    mkBeverage "Fritz-Kola" 2%float 12;
    mkBeverage "Water" 0.5%float 100;
    mkBeverage "Beer" 2.5%float 6 ].

(** [bs[i]] on a slice: panics outside [0 <= i < len(bs)]. *)
Definition slice_index {A} (bs : list A) (i : Z) : option A :=
  if 0 <=? i then bs !! Z.to_nat i else None.

(** [c[i]] on a map read: the zero value when the key is absent. *)
Definition cart_get (c : gmap Z Z) (i : Z) : Z := default 0 (c !! i).

(** ** Messages and commands (bubbletea) *)

Inductive Msg :=
| WindowSizeMsg (Width Height : Z)
| KeyMsg (keypress : string)   (* identified by [msg.String()] *)
| OtherMsg.   (* any other message, such as a mouse event *)

Inductive Cmd := cmd_nil | tea_Quit.

Definition Row := list string.

(** The keys [model.Update] itself reacts to. *)
Definition app_keys : list string :=
  ["ctrl+c"; "q"; "s"; "c"; "+"; "="; "right"; "-"; "left";
   "y"; "n"; "esc"; "enter"].

(** ** The table widget (github.com/charmbracelet/bubbles/table)

    The program reads the highlighted row with [Cursor], replaces the rows with
    [SetRows], forwards every key of the Shop tab with [Update] and draws the
    widget with [View].  The laws are the ones the program relies on: the
    widget keeps its cursor on an existing row, re-setting the rows it already
    shows changes nothing (the cursor being on one of them), and a key outside
    its key map is ignored.  [table_binds] is the key map; the default one
    (up/down, page and half-page moves, home/end and their letter aliases)
    shares no key with [app_keys]. *)
Class Table := {
  table_Model : Type;
  table_New : list Row -> table_Model;
  table_Cursor : table_Model -> Z;
  table_Rows : table_Model -> list Row;
  table_SetRows : list Row -> table_Model -> table_Model;
  table_Update : Msg -> table_Model -> table_Model * Cmd;
  table_View : table_Model -> string;
  table_binds : string -> bool;

  New_Rows : forall rows, table_Rows (table_New rows) = rows;
  New_Cursor : forall rows, table_Cursor (table_New rows) = 0;
  SetRows_Rows : forall rows t, table_Rows (table_SetRows rows t) = rows;
  SetRows_Cursor : forall rows t,
    table_Cursor t < Z.of_nat (length rows) ->
    table_Cursor (table_SetRows rows t) = table_Cursor t;
  SetRows_same : forall t,
    table_Cursor t < Z.of_nat (length (table_Rows t)) ->
    table_SetRows (table_Rows t) t = t;
  Update_Rows : forall msg t,
    table_Rows (table_Update msg t).1 = table_Rows t;
  Update_Cursor : forall msg t,
    0 <= table_Cursor t < Z.of_nat (length (table_Rows t)) ->
    0 <= table_Cursor (table_Update msg t).1 < Z.of_nat (length (table_Rows t));
  Update_unbound : forall k t,
    table_binds k = false -> table_Update (KeyMsg k) t = (t, cmd_nil);
  binds_app_keys : forall k, k ∈ app_keys -> table_binds k = false
}.

(** Modelled from the spec: the table widget is an external package, not part
    of the program.  This reference widget keeps the rows and the cursor and
    follows the spec's navigation rule: "navigate-down/up: move cursor by one
    row, clamp to [0, len(catalog)-1]".  It instantiates the interface in the
    examples below. *)
Module SimpleTable.

Record t := mk { rows : list Row; cursor : Z }.

Definition clamp (v low high : Z) : Z := Z.min (Z.max v low) high.

Definition New (rs : list Row) : t := mk rs 0.

Definition SetRows (rs : list Row) (w : t) : t :=
  mk rs (if Z.of_nat (length rs) - 1 <? cursor w
         then Z.of_nat (length rs) - 1 else cursor w).

Definition binds (k : string) : bool := bool_decide (k ∈ ["up"; "down"]).

Definition Update (msg : Msg) (w : t) : t * Cmd :=
  match msg with
  | KeyMsg k =>
      if decide (k = "up") then
        (mk (rows w) (clamp (cursor w - 1) 0 (Z.of_nat (length (rows w)) - 1)),
         cmd_nil)
      else if decide (k = "down") then
        (mk (rows w) (clamp (cursor w + 1) 0 (Z.of_nat (length (rows w)) - 1)),
         cmd_nil)
      else (w, cmd_nil)
  | _ => (w, cmd_nil)
  end.

(** One line per row, the highlighted one marked. *)
Definition View (w : t) : string :=
  String.concat Fmt.LF
    (imap (fun i r =>
             (if Z.of_nat i =? cursor w then "> " else "  ")
             +:+ String.concat " " r)
          (rows w)).

End SimpleTable.

(** ** The styling library (github.com/charmbracelet/lipgloss)

    Styles and borders are opaque values; the interface lists the operations
    [View] and the package-level style variables apply to them. *)
Class Lipgloss := {
  lip_Border : Type;
  lip_Style : Type;
  RoundedBorder : lip_Border;
  NormalBorder : lip_Border;
  with_BottomLeft : string -> lip_Border -> lip_Border;
  with_Bottom : string -> lip_Border -> lip_Border;
  with_BottomRight : string -> lip_Border -> lip_Border;
  (* NewStyle().Border(b, true).BorderForeground(highlightColor).Padding(0, 1) *)
  tab_NewStyle : lip_Border -> lip_Style;
  (* NewStyle().BorderForeground(highlightColor).Padding(2, 0)
       .Align(Center).Border(b).UnsetBorderTop() *)
  window_NewStyle : lip_Border -> lip_Style;
  (* NewStyle().BorderStyle(b).BorderBottom(true)
       .BorderForeground(highlightColor).Width(w) *)
  filler_NewStyle : lip_Border -> Z -> lip_Style;
  Style_Border : lip_Border -> list bool -> lip_Style -> lip_Style;
  Style_GetBorder : lip_Style -> lip_Border;
  Style_Render : lip_Style -> string -> string;
  lip_Width : string -> Z;
  JoinHorizontal_Bottom : list string -> string;
  JoinVertical_Left : list string -> string;
  Place_Center : Z -> Z -> string -> string
}.

(** A styling that draws nothing, to read [View] on examples: a style renders
    its text as it is, joins concatenate, and placing leaves the block where it
    is. *)
Definition plain_lipgloss : Lipgloss := {|
  lip_Border := unit;
  lip_Style := unit;
  RoundedBorder := tt;
  NormalBorder := tt;
  with_BottomLeft := fun _ b => b;
  with_Bottom := fun _ b => b;
  with_BottomRight := fun _ b => b;
  tab_NewStyle := fun _ => tt;
  window_NewStyle := fun _ => tt;
  filler_NewStyle := fun _ _ => tt;
  Style_Border := fun _ _ st => st;
  Style_GetBorder := fun _ => tt;
  Style_Render := fun _ text => text;
  lip_Width := fun text => Z.of_nat (Fmt.rune_count text);
  JoinHorizontal_Bottom := String.concat " ";
  JoinVertical_Left := String.concat Fmt.LF;
  Place_Center := fun _ _ block => block
|}.

(** ** The controller *)

Section Controller.

Context {tbl : Table}.

Record model := mkModel {
  beverages : list Beverage;
  table : table_Model;
  cart : gmap Z Z;
  isCheckingOut : bool;
  activeTab : Z;
  width : Z;
  height : Z
}.

Definition set_size (w h : Z) (m : model) : model :=
  mkModel (beverages m) (table m) (cart m) (isCheckingOut m) (activeTab m) w h.
Definition set_activeTab (tab : Z) (m : model) : model :=
  mkModel (beverages m) (table m) (cart m) (isCheckingOut m) tab
          (width m) (height m).
Definition set_isCheckingOut (b : bool) (m : model) : model :=
  mkModel (beverages m) (table m) (cart m) b (activeTab m)
          (width m) (height m).
Definition set_cart (c : gmap Z Z) (m : model) : model :=
  mkModel (beverages m) (table m) c (isCheckingOut m) (activeTab m)
          (width m) (height m).
Definition set_table (t : table_Model) (m : model) : model :=
  mkModel (beverages m) t (cart m) (isCheckingOut m) (activeTab m)
          (width m) (height m).

(** The rows handed to the table: one per beverage, in catalog order, with
    the quantity read from the cart (the loop of [initialModel] and of the
    Shop tab in [Update]). *)
Definition make_row (c : gmap Z Z) (i : nat) (b : Beverage) : Row :=
  [ Name b;
    "€" +:+ Fmt.f2 (Price b);
    Fmt.d (Stock b);
    Fmt.d (cart_get c (Z.of_nat i)) ].

Definition make_rows (bs : list Beverage) (c : gmap Z Z) : list Row :=
  imap (make_row c) bs.

(** [initialModel]; [table_New] stands for [table.New] with the four columns,
    the rows, focus and height 7, followed by [SetStyles]. *)
Definition initialModel : model :=
  let cart := (∅ : gmap Z Z) in
  let rows := make_rows ourBeverages cart in
  let t := table_New rows in
  {| beverages := ourBeverages;
     table := t;
     cart := cart;
     isCheckingOut := false;
     activeTab := 0;
     width := 0;
     height := 0 |}.

(** The [hasItems] loop of the Cart tab: it stops at the first positive
    quantity. *)
Fixpoint hasItems_loop (entries : list (Z * Z)) : bool :=
  match entries with
  | [] => false
  | (_, qty) :: rest => if 0 <? qty then true else hasItems_loop rest
  end.

(** The quantity keys of the Shop tab; indexing the catalog at the cursor may
    panic. *)
Definition shop_keys (m : model) (keypress : string) : option model :=
  if decide (keypress ∈ ["+"; "="; "right"]) then
    let cursor := table_Cursor (table m) in
    b ← slice_index (beverages m) cursor;
    if cart_get (cart m) cursor <? Stock b then
      Some (set_cart (<[cursor := int_wrap (cart_get (cart m) cursor + 1)]>
                        (cart m)) m)
    else Some m
  else if decide (keypress ∈ ["-"; "left"]) then
    let cursor := table_Cursor (table m) in
    if 0 <? cart_get (cart m) cursor then
      Some (set_cart (<[cursor := int_wrap (cart_get (cart m) cursor - 1)]>
                        (cart m)) m)
    else Some m
  else Some m.

(** The keys of the Cart tab.  The [hasItems] loop ranges over the map; its
    outcome is the same for every visiting order ([hasItems_loop_cart]
    below), so it is run on the listing of the map. *)
Definition cart_keys (m : model) (keypress : string) : model * Cmd :=
  if isCheckingOut m then
    if decide (keypress = "y") then (m, tea_Quit)
    else if decide (keypress ∈ ["n"; "esc"]) then
      (set_isCheckingOut false m, cmd_nil)
    else (m, cmd_nil)
  else
    if decide (keypress = "enter") then
      if hasItems_loop (map_to_list (cart m)) then
        (set_isCheckingOut true m, cmd_nil)
      else (m, cmd_nil)
    else (m, cmd_nil).

(** The tab keys (the second [switch] on the key). *)
Definition tab_keys (m : model) (keypress : string) : model :=
  if decide (keypress = "s") then
    set_isCheckingOut false (set_activeTab 0 m)
  else if decide (keypress = "c") then
    set_isCheckingOut false (set_activeTab 1 m)
  else m.

(** [model.Update]: the next model and the command, [None] on a panic. *)
Definition Update (m : model) (msg : Msg) : option (model * Cmd) :=
  match msg with
  | WindowSizeMsg w h => Some (set_size w h m, cmd_nil)
  | KeyMsg keypress =>
      if decide (keypress ∈ ["ctrl+c"; "q"]) then Some (m, tea_Quit)
      else
        let m := tab_keys m keypress in
        if activeTab m =? 0 then
          m ← shop_keys m keypress;
          let rows := make_rows (beverages m) (cart m) in
          let t := table_SetRows rows (table m) in
          let '(t, cmd) := table_Update msg t in
          Some (set_table t m, cmd)
        else if activeTab m =? 1 then
          Some (cart_keys m keypress)
        else Some (m, cmd_nil)
  | OtherMsg => Some (m, cmd_nil)
  end.

(** ** The views *)

Record cart_acc := mkAcc {
  acc_s : string;          (* the [strings.Builder] *)
  acc_totalPrice : float;
  acc_hasItems : bool
}.

Definition cart_line (quantity : Z) (beverage : Beverage) (itemPrice : float)
  : string :=
  "  " +:+ Fmt.d quantity +:+ "x " +:+ Fmt.s_left20 (Name beverage)
  +:+ " @ €" +:+ Fmt.f2 (Price beverage)
  +:+ " each = €" +:+ Fmt.f2 itemPrice +:+ Fmt.LF.

(** One iteration of the loop of [cartView] on the entry [(i, quantity)]. *)
Definition cartView_step (bs : list Beverage) (acc : cart_acc)
    (entry : Z * Z) : option cart_acc :=
  let '(i, quantity) := entry in
  if 0 <? quantity then
    beverage ← slice_index bs i;
    let itemPrice := (Price beverage * float64_of_int quantity)%float in
    Some (mkAcc (acc_s acc +:+ cart_line quantity beverage itemPrice)
                (acc_totalPrice acc + itemPrice)%float
                true)
  else Some acc.

Fixpoint cartView_loop (bs : list Beverage) (entries : list (Z * Z))
    (acc : cart_acc) : option cart_acc :=
  match entries with
  | [] => Some acc
  | entry :: rest =>
      acc ← cartView_step bs acc entry;
      cartView_loop bs rest acc
  end.

Definition cart_header : string := "Your Current Order:" +:+ Fmt.LF +:+ Fmt.LF.
Definition cart_empty : string :=
  "  Your cart is empty!" +:+ Fmt.LF +:+ Fmt.LF +:+ Fmt.LF
  +:+ "Go to the 'Shop' tab to add items.".
Definition cart_separator : string :=
  Fmt.LF +:+ "  -------------------------------------------" +:+ Fmt.LF.
Definition cart_total (totalPrice : string) : string :=
  "  Total: €" +:+ totalPrice +:+ Fmt.LF.
Definition cart_confirm : string :=
  Fmt.LF +:+ Fmt.LF +:+ "Confirm purchase? (y/n)" +:+ Fmt.LF
  +:+ "(Press 'esc' or 'n' to cancel checkout)".
Definition cart_checkout_hint : string :=
  Fmt.LF +:+ Fmt.LF +:+ "Press 'enter' to checkout.".

(** [model.cartView], the entries of the cart being visited in the order
    [entries]. *)
Definition cartView_in (entries : list (Z * Z)) (m : model) : option string :=
  acc ← cartView_loop (beverages m) entries
          (mkAcc cart_header 0%float false);
  Some
    (if negb (acc_hasItems acc) then acc_s acc +:+ cart_empty
     else
       acc_s acc +:+ cart_separator
       +:+ cart_total (Fmt.f2 (acc_totalPrice acc))
       +:+ (if isCheckingOut m then cart_confirm else cart_checkout_hint)).

(** The orders in which a [range] may visit the cart. *)
Definition range_order (c : gmap Z Z) (entries : list (Z * Z)) : Prop :=
  entries ≡ₚ map_to_list c.

(** What a call of [model.cartView] may return. *)
Definition cartView_returns (m : model) (s : string) : Prop :=
  exists entries,
    range_order (cart m) entries /\ cartView_in entries m = Some s.

Context {lip : Lipgloss}.

Definition tabBorderWithBottom (left middle right : string) : lip_Border :=
  with_BottomRight right (with_Bottom middle (with_BottomLeft left RoundedBorder)).

Definition inactiveTabBorder := tabBorderWithBottom "┴" "─" "┴".
Definition activeTabBorder := tabBorderWithBottom "┘" " " "└".
Definition inactiveTabStyle := tab_NewStyle inactiveTabBorder.
Definition activeTabStyle := Style_Border activeTabBorder [true] inactiveTabStyle.
Definition windowStyle := window_NewStyle NormalBorder.

Definition shop_help : string :=
  Fmt.LF +:+ Fmt.LF +:+ "Use ←/→ to change quantity." +:+ Fmt.LF
  +:+ "Press 'c' to view cart, 'q' to quit.".

Definition tabs : list string := ["Shop [s]"; "Cart [c]"].

Definition render_tab (m : model) (i : nat) (t : string) : string :=
  let isFirst := bool_decide (i = 0%nat) in
  let isLast := bool_decide (Z.of_nat i = Z.of_nat (length tabs) - 1) in
  let isActive := bool_decide (Z.of_nat i = activeTab m) in
  let style := if isActive then activeTabStyle else inactiveTabStyle in
  let border := Style_GetBorder style in
  let border :=
    if isFirst && isActive then with_BottomLeft "│" border
    else if isFirst && negb isActive then with_BottomLeft "├" border
    else if isLast && isActive then with_BottomRight "│" border
    else if isLast && negb isActive then with_BottomRight "┤" border
    else border in
  Style_Render (Style_Border border [] style) t.

(** [model.View], with the visiting order of the cart made explicit. *)
Definition View_in (entries : list (Z * Z)) (m : model) : option string :=
  content ←
    (if activeTab m =? 1 then
       mainContent ← cartView_in entries m;
       Some (mainContent +:+ "")
     else Some (table_View (table m) +:+ shop_help));
  let renderedContent := Style_Render windowStyle content in
  let contentWidth := lip_Width renderedContent in
  let renderedTabs := imap (render_tab m) tabs in
  tab0 ← slice_index renderedTabs 0;
  tab1 ← slice_index renderedTabs 1;
  let tabsWidth := int_wrap (lip_Width tab0 + lip_Width tab1) in
  let fillerWidth := int_wrap (contentWidth - tabsWidth) in
  let fillerStyle := filler_NewStyle inactiveTabBorder fillerWidth in
  let tabsRow :=
    JoinHorizontal_Bottom [tab0; Style_Render fillerStyle ""; tab1] in
  let finalView := JoinVertical_Left [tabsRow; renderedContent] in
  Some (Place_Center (width m) (height m) finalView).

Definition View_returns (m : model) (s : string) : Prop :=
  exists entries,
    range_order (cart m) entries /\ View_in entries m = Some s.

(** ** Runs of the event loop *)

(** The states the program can be in: the initial model and every model a
    call of [Update] returns. *)
Inductive reachable : model -> Prop :=
| reachable_init : reachable initialModel
| reachable_step m msg m' cmd :
    reachable m -> Update m msg = Some (m', cmd) -> reachable m'.

(** Feeding a list of messages; a panicking call leaves the model as it
    was. *)
Definition step (m : model) (msg : Msg) : model :=
  match Update m msg with
  | Some (m', _) => m'
  | None => m
  end.

Definition steps (msgs : list Msg) (m : model) : model :=
  fold_left step msgs m.

(** ** Invariants *)

Definition cursor_ok (m : model) : Prop :=
  0 <= table_Cursor (table m) < Z.of_nat (length (beverages m)).

Definition cart_ok (m : model) : Prop :=
  forall i q, cart m !! i = Some q ->
    exists b, slice_index (beverages m) i = Some b /\ 0 <= q <= Stock b.

Definition has_positive (c : gmap Z Z) : Prop :=
  exists i q, c !! i = Some q /\ 0 < q.

Record Inv (m : model) : Prop := mkInv {
  inv_beverages : beverages m = ourBeverages;
  inv_rows : table_Rows (table m) = make_rows (beverages m) (cart m);
  inv_cursor : cursor_ok m;
  inv_cart : cart_ok m;
  inv_tab : activeTab m = 0 \/ activeTab m = 1;
  inv_checkout_tab : isCheckingOut m = true -> activeTab m = 1;
  inv_checkout_items : isCheckingOut m = true -> has_positive (cart m)
}.

(** Messages that neither [Update] nor the table reacts to. *)
Definition unrecognized (msg : Msg) : Prop :=
  match msg with
  | WindowSizeMsg _ _ => False
  | KeyMsg k => (k ∉ app_keys) /\ table_binds k = false
  | OtherMsg => True
  end.

(** Substring test, for statements about what a view shows. *)
Fixpoint contains (needle hay : string) : bool :=
  match hay with
  | EmptyString => String.prefix needle hay
  | String _ rest => String.prefix needle hay || contains needle rest
  end.

End Controller.

(** ** Exact amounts

    The amounts the spec speaks of: the product of a unit price and a quantity
    and the sum of such products, taken in the rationals on the exact value of
    the [float64] price, with no intermediate rounding. *)

Definition exact_line_total (b : Beverage) (q : Z) : Q :=
  (float_exact (Price b) * inject_Z q)%Q.

(** A cart line that shows the exact line total. *)
Definition exact_cart_line (q : Z) (b : Beverage) : string :=
  "  " +:+ Fmt.d q +:+ "x " +:+ Fmt.s_left20 (Name b)
  +:+ " @ €" +:+ Fmt.f2 (Price b)
  +:+ " each = €" +:+ Fmt.Q2 (exact_line_total b q) +:+ Fmt.LF.

(** The binary64 number [k / 2], and a price counted in halves: every price of
    the catalog is a small multiple of one half, so that the products and sums
    [cartView] computes are of this form. *)
Definition half_units (k : Z) : float :=
  (PrimFloat.of_uint63 (Uint63.of_Z k) * 0.5)%float.

Definition price_halves (b : Beverage) : Z :=
  match Fmt.float_cents (Price b) with
  | Some (_, c) => c / 50
  | None => 0
  end.

Definition catalog_quantities : list (Beverage * Z) :=
  b ← ourBeverages; q ← seqZ 1 (Stock b); [(b, q)].

(** ** The cart page as the spec words it

    Written from the spec and from the literals of the page, with no use of
    the definitions [cartView] is embedded with: its own rounding, its own
    decimal numerals, its own padding and its own text.  The theorems about
    the cart view compare the embedding with this page. *)
Module Expected.

Fixpoint blanks (n : nat) : string :=
  match n with
  | O => EmptyString
  | S n' => String " "%char (blanks n')
  end.

(** A name padded on the right to twenty characters. *)
Definition padded (name : string) : string :=
  name +:+ blanks (20 - String.length name).

(** The number of hundredths nearest to an amount, ties to even. *)
Definition cents (q : Q) : Z :=
  let n := 100 * Qnum q in
  let d := Z.pos (Qden q) in
  match 2 * (n mod d) ?= d with
  | Lt => n / d
  | Gt => n / d + 1
  | Eq => if Z.even (n / d) then n / d else n / d + 1
  end.

(** An amount that is a whole number of hundredths: writing it with two
    decimals rounds nothing away. *)
Definition exact (q : Q) : Prop := (inject_Z (cents q) == 100 * q)%Q.

(** The decimal numeral, with two decimals, of a number of hundredths. *)
Definition hundredths (c : Z) : string :=
  pretty (c / 100) +:+ "." +:+ pretty (c / 10 mod 10) +:+ pretty (c mod 10).

(** A non-negative amount written with two decimals. *)
Definition money (q : Q) : string := hundredths (cents q).

(** The unit price of a beverage: the number its [float64] price stands
    for. *)
Definition price (b : Beverage) : Q :=
  match Prim2SF (Price b) with
  | S754_finite false m e => (inject_Z (Z.pos m) * Qpower 2 e)%Q
  | _ => 0%Q
  end.

Definition line_total (b : Beverage) (q : Z) : Q :=
  (price b * inject_Z q)%Q.

(** [<qty>x <name padded> @ <unit price> each = <line total>]. *)
Definition line (q : Z) (b : Beverage) : string :=
  "  " +:+ pretty q +:+ "x " +:+ padded (Name b)
  +:+ " @ €" +:+ money (price b)
  +:+ " each = €" +:+ money (line_total b q) +:+ "
".

Definition item (bs : list Beverage) (i : Z) : option Beverage :=
  if decide (0 <= i) then bs !! Z.to_nat i else None.

(** The lines of the entries with a positive quantity, in the order given. *)
Fixpoint lines (bs : list Beverage) (entries : list (Z * Z)) : string :=
  match entries with
  | [] => EmptyString
  | (i, q) :: rest =>
      match item bs i with
      | Some b => if decide (0 < q) then line q b +:+ lines bs rest
                  else lines bs rest
      | None => lines bs rest
      end
  end.

(** The sum of the line totals of the entries with a positive quantity. *)
Fixpoint total (bs : list Beverage) (entries : list (Z * Z)) : Q :=
  match entries with
  | [] => 0%Q
  | (i, q) :: rest =>
      match item bs i with
      | Some b => if decide (0 < q) then (line_total b q + total bs rest)%Q
                  else total bs rest
      | None => total bs rest
      end
  end.

Definition has_items (entries : list (Z * Z)) : bool :=
  existsb (fun e => bool_decide (0 < e.2)) entries.

(** The page of a cart with items: the lines, the separator, the total line
    and the hint or, when a checkout is pending, the confirmation prompt. *)
Definition cart_view (item_lines : string) (total_price : Q)
    (checkoutPending : bool) : string :=
  "Your Current Order:

" +:+ item_lines +:+ "
  -------------------------------------------
" +:+ "  Total: €" +:+ money total_price +:+ "
" +:+ (if checkoutPending then "

Confirm purchase? (y/n)
(Press 'esc' or 'n' to cancel checkout)"
       else "

Press 'enter' to checkout.").

(** The page of a cart without items. *)
Definition empty_view : string :=
  "Your Current Order:

  Your cart is empty!


Go to the 'Shop' tab to add items.".

End Expected.

(** * The reference table widget satisfies the interface *)

Lemma SimpleTable_SetRows_Cursor rs (w : SimpleTable.t) :
  SimpleTable.cursor w < Z.of_nat (length rs) ->
  SimpleTable.cursor (SimpleTable.SetRows rs w) = SimpleTable.cursor w.
Proof.
  intros Hlt. simpl.
  destruct (Z.ltb_spec (Z.of_nat (length rs) - 1) (SimpleTable.cursor w));
    [lia | reflexivity].
Qed.

Lemma SimpleTable_SetRows_same (w : SimpleTable.t) :
  SimpleTable.cursor w < Z.of_nat (length (SimpleTable.rows w)) ->
  SimpleTable.SetRows (SimpleTable.rows w) w = w.
Proof.
  intros Hlt. destruct w as [rs c]; simpl in *.
  unfold SimpleTable.SetRows; simpl.
  destruct (Z.ltb_spec (Z.of_nat (length rs) - 1) c); [lia | reflexivity].
Qed.

Lemma SimpleTable_Update_Rows msg (w : SimpleTable.t) :
  SimpleTable.rows (SimpleTable.Update msg w).1 = SimpleTable.rows w.
Proof.
  destruct msg as [? ?|k|]; simpl; try reflexivity.
  repeat case_decide; reflexivity.
Qed.

Lemma SimpleTable_Update_Cursor msg (w : SimpleTable.t) :
  0 <= SimpleTable.cursor w < Z.of_nat (length (SimpleTable.rows w)) ->
  0 <= SimpleTable.cursor (SimpleTable.Update msg w).1
    < Z.of_nat (length (SimpleTable.rows w)).
Proof.
  intros Hc. destruct msg as [? ?|k|]; simpl; try assumption.
  unfold SimpleTable.clamp.
  repeat case_decide; simpl; lia.
Qed.

Lemma SimpleTable_Update_unbound k (w : SimpleTable.t) :
  SimpleTable.binds k = false ->
  SimpleTable.Update (KeyMsg k) w = (w, cmd_nil).
Proof.
  unfold SimpleTable.binds. intros Hk%bool_decide_eq_false.
  simpl. repeat case_decide; subst; try reflexivity;
    exfalso; apply Hk; set_solver.
Qed.

Lemma SimpleTable_binds_app_keys k :
  k ∈ app_keys -> SimpleTable.binds k = false.
Proof.
  intros Hk. apply bool_decide_eq_false. intros Hb.
  unfold app_keys in Hk.
  repeat (apply elem_of_cons in Hk as [->|Hk]);
    try (by apply elem_of_nil in Hk);
    repeat (apply elem_of_cons in Hb as [Hb|Hb]; [discriminate Hb|]);
    by apply elem_of_nil in Hb.
Qed.

Definition simple_table : Table := {|
  table_Model := SimpleTable.t;
  table_New := SimpleTable.New;
  table_Cursor := SimpleTable.cursor;
  table_Rows := SimpleTable.rows;
  table_SetRows := SimpleTable.SetRows;
  table_Update := SimpleTable.Update;
  table_View := SimpleTable.View;
  table_binds := SimpleTable.binds;
  New_Rows := fun _ => eq_refl;
  New_Cursor := fun _ => eq_refl;
  SetRows_Rows := fun _ _ => eq_refl;
  SetRows_Cursor := SimpleTable_SetRows_Cursor;
  SetRows_same := SimpleTable_SetRows_same;
  Update_Rows := SimpleTable_Update_Rows;
  Update_Cursor := SimpleTable_Update_Cursor;
  Update_unbound := SimpleTable_Update_unbound;
  binds_app_keys := SimpleTable_binds_app_keys
|}.

(** Runs of the program with the reference table widget. *)
Definition run (msgs : list Msg) : @model simple_table :=
  steps msgs initialModel.

(** Two Club-Mate and one Espresso, then the Cart tab. *)
Definition two_items : list Msg :=
  [KeyMsg "+"; KeyMsg "right"; KeyMsg "down"; KeyMsg "="; KeyMsg "c"].

(** Six Beer, the whole stock, with the cursor on Beer. *)
Definition beer_ceiling : list Msg :=
  repeat (KeyMsg "down") 4 ++ repeat (KeyMsg "+") 6.

(** One Club-Mate added and removed again, then the Cart tab: the cart holds
    the entry [0 := 0]. *)
Definition emptied : list Msg := [KeyMsg "+"; KeyMsg "-"; KeyMsg "c"].

(** The confirmation step, entered from [two_items]. *)
Definition confirming : list Msg := two_items ++ [KeyMsg "enter"].

(** * Properties *)

Section Properties.

Context {tbl : Table}.

(** ** Auxiliary facts *)

Lemma int_wrap_small x : - 2 ^ 63 <= x < 2 ^ 63 -> int_wrap x = x.
Proof. intros Hx. unfold int_wrap. rewrite Z.mod_small; lia. Qed.

Lemma slice_index_Some {A} (l : list A) i x :
  slice_index l i = Some x -> 0 <= i < Z.of_nat (length l).
Proof.
  unfold slice_index. destruct (Z.leb_spec 0 i); [|discriminate].
  intros Hl%lookup_lt_Some. lia.
Qed.

Lemma slice_index_is_Some {A} (l : list A) i :
  0 <= i < Z.of_nat (length l) -> is_Some (slice_index l i).
Proof.
  intros Hi. unfold slice_index.
  destruct (Z.leb_spec 0 i); [|lia]. apply lookup_lt_is_Some. lia.
Qed.

Lemma ourBeverages_Stock i b :
  slice_index ourBeverages i = Some b -> 0 <= Stock b <= 100.
Proof.
  intros Hb. pose proof (slice_index_Some _ _ _ Hb) as Hi. simpl in Hi.
  assert (i = 0 \/ i = 1 \/ i = 2 \/ i = 3 \/ i = 4) as Hcases by lia.
  destruct Hcases as [->|[->|[->|[->| ->]]]];
    injection Hb as <-; simpl; lia.
Qed.

Lemma length_make_rows bs c : length (make_rows bs c) = length bs.
Proof. unfold make_rows. apply length_imap. Qed.

Lemma hasItems_loop_true entries :
  hasItems_loop entries = true <->
  exists i q, (i, q) ∈ entries /\ 0 < q.
Proof.
  induction entries as [|[k qty] rest IH]; simpl.
  - split; [discriminate|]. intros (i & q & Hin & _).
    by apply elem_of_nil in Hin.
  - destruct (Z.ltb_spec 0 qty) as [Hpos|Hle].
    + split; [|reflexivity]. intros _. exists k, qty. split; [left|lia].
    + rewrite IH. split.
      * intros (i & q & Hin & Hq). exists i, q. split; [by right|lia].
      * intros (i & q & Hin & Hq).
        apply elem_of_cons in Hin as [Heq|Hin].
        -- injection Heq as -> ->. lia.
        -- eauto.
Qed.

(** The outcome of the [hasItems] loop does not depend on the order in
    which the map is visited. *)
Lemma hasItems_loop_cart (c : gmap Z Z) entries :
  range_order c entries ->
  hasItems_loop entries = true <-> has_positive c.
Proof.
  unfold range_order, has_positive. intros Hperm.
  rewrite hasItems_loop_true.
  split; intros (i & q & Hin & Hq); exists i, q; split; try done.
  - apply elem_of_map_to_list. by rewrite <- Hperm.
  - rewrite Hperm. by apply elem_of_map_to_list.
Qed.

Lemma cart_get_lookup (c : gmap Z Z) i q :
  c !! i = Some q -> cart_get c i = q.
Proof. unfold cart_get. by intros ->. Qed.

Lemma cart_get_nonzero (c : gmap Z Z) i :
  cart_get c i <> 0 -> c !! i = Some (cart_get c i).
Proof. unfold cart_get. destruct (c !! i); simpl; [done|lia]. Qed.

(** ** The invariant of the controller *)

Lemma Inv_initialModel : Inv initialModel.
Proof.
  split; simpl.
  - reflexivity.
  - apply New_Rows.
  - unfold cursor_ok; simpl. rewrite New_Cursor. lia.
  - intros i q Hi. simpl in Hi. by rewrite lookup_empty in Hi.
  - by left.
  - discriminate.
  - discriminate.
Qed.

(** What the quantity keys change: the cart only, and within bounds. *)
Lemma shop_keys_frame m k m' :
  shop_keys m k = Some m' ->
  beverages m' = beverages m /\ table m' = table m /\
  isCheckingOut m' = isCheckingOut m /\ activeTab m' = activeTab m /\
  width m' = width m /\ height m' = height m.
Proof.
  unfold shop_keys. intros Hk.
  repeat case_decide.
  - destruct (slice_index _ _) as [b|]; [|discriminate]. simpl in Hk.
    destruct (_ <? _); by injection Hk as <-.
  - destruct (_ <? _); by injection Hk as <-.
  - by injection Hk as <-.
Qed.

Lemma cart_ok_insert m i q b :
  cart_ok m -> slice_index (beverages m) i = Some b -> 0 <= q <= Stock b ->
  cart_ok (set_cart (<[i := q]> (cart m)) m).
Proof.
  intros Hok Hb Hq j q' Hj. simpl in *.
  destruct (decide (i = j)) as [->|Hne].
  - rewrite lookup_insert_eq in Hj. injection Hj as <-. eauto.
  - rewrite lookup_insert_ne in Hj by done. eauto.
Qed.

Lemma shop_keys_cart_ok m k m' :
  beverages m = ourBeverages -> cart_ok m ->
  shop_keys m k = Some m' -> cart_ok m'.
Proof.
  intros Hbev Hok. unfold shop_keys.
  set (cursor := table_Cursor (table m)).
  assert (0 <= cart_get (cart m) cursor) as Hnonneg.
  { unfold cart_get. destruct (cart m !! cursor) as [q|] eqn:Hq; simpl; [|lia].
    destruct (Hok _ _ Hq) as (b & _ & ?). lia. }
  repeat case_decide.
  - destruct (slice_index _ _) as [b|] eqn:Hb; [|discriminate]. simpl.
    destruct (Z.ltb_spec (cart_get (cart m) cursor) (Stock b));
      intros [= <-]; [|done].
    assert (0 <= Stock b <= 100) by
      (apply (ourBeverages_Stock cursor); by rewrite <- Hbev).
    rewrite int_wrap_small by lia.
    apply cart_ok_insert with b; [done..|lia].
  - destruct (Z.ltb_spec 0 (cart_get (cart m) cursor)) as [Hpos|];
      intros [= <-]; [|done].
    destruct (Hok cursor (cart_get (cart m) cursor)) as (b & Hb & Hq).
    { apply cart_get_nonzero. lia. }
    assert (0 <= Stock b <= 100) by
      (apply (ourBeverages_Stock cursor); by rewrite <- Hbev).
    rewrite int_wrap_small by lia.
    apply cart_ok_insert with b; [done..|lia].
  - by intros [= <-].
Qed.

Lemma Inv_tab_keys m k : Inv m -> Inv (tab_keys m k).
Proof.
  intros [? ? ? ? ? ? ?]. unfold tab_keys.
  repeat case_decide; try done; split; simpl; auto; discriminate.
Qed.

Lemma Inv_cart_keys m k : Inv m -> activeTab m = 1 -> Inv (cart_keys m k).1.
Proof.
  intros HI Htab. pose proof HI as [? ? ? ? ? ? ?]. unfold cart_keys.
  destruct (isCheckingOut m) eqn:Hco.
  - repeat case_decide; simpl; try done;
      split; simpl; auto; discriminate.
  - case_decide; simpl; [|done].
    destruct (hasItems_loop _) eqn:Hhas; simpl; [|done].
    split; simpl; auto. intros _.
    apply (hasItems_loop_cart (cart m) (map_to_list (cart m)));
      [by unfold range_order|exact Hhas].
Qed.

Lemma Inv_Update m msg m' cmd :
  Inv m -> Update m msg = Some (m', cmd) -> Inv m'.
Proof.
  intros HI. destruct msg as [w h|k|]; simpl.
  - intros [= <- <-]. destruct HI. by split.
  - case_decide; [by intros [= <- <-]|].
    pose proof (Inv_tab_keys m k HI) as HI1.
    set (m1 := tab_keys m k) in *.
    destruct (Z.eqb_spec (activeTab m1) 0) as [Htab0|Htab0].
    + destruct (shop_keys m1 k) as [m2|] eqn:Hshop; [|discriminate]. simpl.
      destruct (shop_keys_frame _ _ _ Hshop)
        as (Hbev & Htable & Hco & Htab & _ & _).
      pose proof (shop_keys_cart_ok _ _ _ (inv_beverages _ HI1)
                    (inv_cart _ HI1) Hshop) as Hcart.
      set (t := table_SetRows _ _).
      destruct (table_Update (KeyMsg k) t) as [t' cmd'] eqn:Hupd.
      intros [= <- <-].
      assert (table_Rows t = make_rows (beverages m2) (cart m2)) as Hrows
        by apply SetRows_Rows.
      assert (table_Cursor t = table_Cursor (table m1)) as Hcur.
      { unfold t. rewrite Htable. apply SetRows_Cursor.
        rewrite length_make_rows, Hbev. apply (inv_cursor _ HI1). }
      assert (isCheckingOut m2 = false) as Hco2.
      { rewrite Hco. destruct (isCheckingOut m1) eqn:E; [|done].
        pose proof (inv_checkout_tab _ HI1 E). lia. }
      split; simpl.
      * rewrite Hbev. apply (inv_beverages _ HI1).
      * replace t' with (table_Update (KeyMsg k) t).1 by (by rewrite Hupd).
        by rewrite Update_Rows.
      * unfold cursor_ok; simpl.
        replace t' with (table_Update (KeyMsg k) t).1 by (by rewrite Hupd).
        pose proof (Update_Cursor (KeyMsg k) t) as Hc.
        rewrite Hrows, length_make_rows in Hc. apply Hc.
        rewrite Hcur, Hbev. apply (inv_cursor _ HI1).
      * done.
      * rewrite Htab. by left.
      * rewrite Hco2. discriminate.
      * rewrite Hco2. discriminate.
    + destruct (Z.eqb_spec (activeTab m1) 1) as [Htab1|Htab1].
      * intros [= Hm]. pose proof (Inv_cart_keys m1 k HI1 Htab1) as HI2.
        by rewrite Hm in HI2.
      * by intros [= <- <-].
  - by intros [= <- <-].
Qed.

Lemma reachable_Inv m : reachable m -> Inv m.
Proof.
  induction 1 as [|m msg m' cmd _ IH Hupd].
  - apply Inv_initialModel.
  - by apply (Inv_Update m msg m' cmd).
Qed.

Lemma reachable_steps msgs m : reachable m -> reachable (steps msgs m).
Proof.
  revert m. induction msgs as [|msg msgs IH]; intros m Hm; simpl; [done|].
  apply IH. unfold step.
  destruct (Update m msg) as [[m' cmd]|] eqn:Hupd; [|done].
  by apply (reachable_step m msg m' cmd).
Qed.

(** ** The transition function *)

Ltac key_in := apply list_elem_of_In; simpl; tauto.
Ltac key_sub :=
  match goal with
  | Hin : _ ∈ _ |- _ ∈ _ =>
      apply list_elem_of_In; apply list_elem_of_In in Hin;
      simpl in *; tauto
  end.
Ltac key_solve := exfalso; match goal with Hk : _ ∉ _ |- _ =>
  apply Hk; first [key_in | key_sub] end.

Lemma set_table_same m : set_table (table m) m = m.
Proof. by destruct m. Qed.

(** A key of the Shop tab that leaves the cart alone and that the table
    ignores leaves the whole model as it was. *)
Lemma shop_noop m k :
  Inv m -> activeTab m = 0 ->
  k ∉ ["ctrl+c"; "q"; "s"; "c"] -> table_binds k = false ->
  shop_keys m k = Some m ->
  Update m (KeyMsg k) = Some (m, cmd_nil).
Proof.
  intros HI Htab Hk Hunbound Hshop. simpl.
  case_decide as Hquit; [key_solve|].
  assert (tab_keys m k = m) as ->.
  { unfold tab_keys. repeat case_decide; subst; try done; key_solve. }
  rewrite Htab. simpl. rewrite Hshop. simpl.
  rewrite <- (inv_rows _ HI), SetRows_same.
  - rewrite Update_unbound by done. by rewrite set_table_same.
  - rewrite (inv_rows _ HI), length_make_rows. apply (inv_cursor _ HI).
Qed.

Lemma cursor_ok_tab_keys m k : cursor_ok m -> cursor_ok (tab_keys m k).
Proof. unfold tab_keys. by repeat case_decide. Qed.

(** [Update] panics only on the catalog index of the increment keys: with the
    cursor on a row of the catalog it returns. *)
Lemma Update_total m msg :
  cursor_ok m -> exists m' cmd, Update m msg = Some (m', cmd).
Proof.
  intros Hcur. destruct msg as [w h|k|]; simpl; eauto.
  case_decide; eauto.
  pose proof (cursor_ok_tab_keys m k Hcur) as Hcur1.
  set (m1 := tab_keys m k) in *.
  destruct (activeTab m1 =? 0); [|destruct (activeTab m1 =? 1)]; eauto.
  - assert (is_Some (shop_keys m1 k)) as [m2 ->].
    { unfold shop_keys.
      destruct (slice_index_is_Some (beverages m1) (table_Cursor (table m1))
                  Hcur1) as [b ->].
      simpl. repeat case_decide; repeat case_match; eauto. }
    simpl. destruct (table_Update _ _); eauto.
  - destruct (cart_keys m1 k); eauto.
Qed.

Lemma Update_unrecognized m msg :
  Inv m -> unrecognized msg -> Update m msg = Some (m, cmd_nil).
Proof.
  intros HI Hun. destruct msg as [w h|k|]; simpl in Hun; [done| |done].
  destruct Hun as [Hk Hunbound].
  destruct (inv_tab _ HI) as [Htab|Htab].
  - apply shop_noop; try done.
    + intros Hin. key_solve.
    + unfold shop_keys. repeat case_decide; try done; key_solve.
  - simpl.
    case_decide as Hquit; [key_solve|].
    assert (tab_keys m k = m) as ->.
    { unfold tab_keys. repeat case_decide; subst; try done; key_solve. }
    rewrite Htab. simpl. unfold cart_keys.
    destruct (isCheckingOut m); repeat case_decide; subst; try done;
      key_solve.
Qed.

(** ** The cart view *)

Lemma cartView_step_hasItems bs acc entry acc' :
  cartView_step bs acc entry = Some acc' ->
  acc_hasItems acc = true -> acc_hasItems acc' = true.
Proof.
  destruct entry as [i q]. simpl.
  destruct (0 <? q); [|by intros [= <-]].
  destruct (slice_index bs i); [|discriminate]. simpl. by intros [= <-].
Qed.

Lemma cartView_loop_hasItems bs entries acc acc' :
  cartView_loop bs entries acc = Some acc' ->
  acc_hasItems acc = true -> acc_hasItems acc' = true.
Proof.
  revert acc. induction entries as [|entry rest IH]; intros acc; simpl.
  - by intros [= <-].
  - destruct (cartView_step bs acc entry) as [acc1|] eqn:Hstep;
      [|discriminate]. simpl.
    intros Hloop Hacc. apply (IH acc1 Hloop).
    by apply (cartView_step_hasItems bs acc entry).
Qed.

(** The loop sets [hasItems] only on a positive quantity... *)
Lemma cartView_loop_found bs entries acc acc' :
  cartView_loop bs entries acc = Some acc' ->
  acc_hasItems acc' = true ->
  acc_hasItems acc = true \/ exists i q, (i, q) ∈ entries /\ 0 < q.
Proof.
  revert acc. induction entries as [|[i q] rest IH]; intros acc; simpl.
  - intros [= <-]. by left.
  - destruct (Z.ltb_spec 0 q) as [Hpos|Hle].
    + intros _ _. right. exists i, q. split; [left|done].
    + simpl. intros Hloop Hhas.
      destruct (IH acc Hloop Hhas) as [?|(i' & q' & Hin & Hq')];
        [by left|].
      right. exists i', q'. split; [by right|done].
Qed.

(** ... and writes nothing when it never does. *)
Lemma cartView_loop_nothing bs entries acc acc' :
  cartView_loop bs entries acc = Some acc' ->
  acc_hasItems acc' = false -> acc_s acc' = acc_s acc.
Proof.
  revert acc. induction entries as [|[i q] rest IH]; intros acc; simpl.
  - by intros [= <-].
  - destruct (Z.ltb_spec 0 q) as [Hpos|Hle]; [|apply IH].
    destruct (slice_index bs i) as [b|]; [|discriminate]. simpl.
    intros Hloop Hhas.
    pose proof (cartView_loop_hasItems _ _ _ _ Hloop eq_refl). congruence.
Qed.

(** ** The claims about the controller *)

(** C1.  In every reachable state the cursor is a valid index of the catalog
    and every cart entry sits at a catalog index with a quantity between 0
    and that beverage's stock.  Reachable states are closed under every
    transition, so the bounds hold after each of them, also after an
    increment at the stock ceiling or a decrement at zero. *)
Theorem C1_reachable_bounds (m : model) :
  reachable m ->
  0 <= table_Cursor (table m) < Z.of_nat (length (beverages m)) /\
  forall i q, cart m !! i = Some q ->
    exists b, slice_index (beverages m) i = Some b /\ 0 <= q <= Stock b.
Proof.
  intros Hreach. apply reachable_Inv in Hreach.
  split; [apply (inv_cursor _ Hreach)|apply (inv_cart _ Hreach)].
Qed.

(** C2.  [Update] never panics on a model whose cursor is on a row of the
    catalog, as it is in every reachable state: it returns a model and a
    command on every message, the increment and decrement keys included.  And
    from a reachable state, a message that is neither one of the program's
    keys nor a key of the table returns the model unchanged, with no
    command. *)
Theorem C2_Update_total (m : model) (msg : Msg) :
  (cursor_ok m -> exists m' cmd, Update m msg = Some (m', cmd)) /\
  (reachable m ->
   cursor_ok m /\ (unrecognized msg -> Update m msg = Some (m, cmd_nil))).
Proof.
  split.
  - apply Update_total.
  - intros Hreach. apply reachable_Inv in Hreach. split.
    + apply (inv_cursor _ Hreach).
    + by apply Update_unrecognized.
Qed.

(** C4.  On the Shop tab of a reachable state, an increment key pressed when
    the quantity at the cursor equals the stock of that beverage, and a
    decrement key pressed when that quantity is 0, both return the model
    unchanged with no command (and no panic). *)
Theorem C4_boundary_noop (m : model) :
  reachable m -> activeTab m = 0 ->
  let cursor := table_Cursor (table m) in
  (forall k b, k ∈ ["+"; "="; "right"] ->
     slice_index (beverages m) cursor = Some b ->
     cart_get (cart m) cursor = Stock b ->
     Update m (KeyMsg k) = Some (m, cmd_nil)) /\
  (forall k, k ∈ ["-"; "left"] ->
     cart_get (cart m) cursor = 0 ->
     Update m (KeyMsg k) = Some (m, cmd_nil)).
Proof.
  intros Hreach Htab cursor. apply reachable_Inv in Hreach.
  split.
  - intros k b Hk Hb Hq.
    apply shop_noop; try done.
    + intros Hin. apply list_elem_of_In in Hk, Hin. simpl in *.
      intuition (subst; discriminate).
    + apply binds_app_keys. key_sub.
    + unfold shop_keys. fold cursor. rewrite decide_True by done.
      rewrite Hb. simpl. rewrite Hq, Z.ltb_irrefl. done.
  - intros k Hk Hq.
    apply shop_noop; try done.
    + intros Hin. apply list_elem_of_In in Hk, Hin. simpl in *.
      intuition (subst; discriminate).
    + apply binds_app_keys. key_sub.
    + unfold shop_keys. fold cursor.
      rewrite decide_False.
      * rewrite decide_True by done. by rewrite Hq.
      * intros Hin. apply list_elem_of_In in Hk, Hin. simpl in *.
        intuition (subst; discriminate).
Qed.

(** C5.  In a reachable state [isCheckingOut] is set only on the Cart tab;
    and from any model the "s" key leads, without panic and without the quit
    command, to a model on the Shop tab with [isCheckingOut] cleared, that
    is to the browsing state of the Shop tab; the cart, the catalog and the
    viewport size are as before. *)
Theorem C5_checkout_only_on_cart (m : model) :
  (reachable m -> isCheckingOut m = true -> activeTab m = 1) /\
  (exists m',
     Update m (KeyMsg "s") = Some (m', cmd_nil) /\
     isCheckingOut m' = false /\ activeTab m' = 0 /\
     cart m' = cart m /\ beverages m' = beverages m /\
     width m' = width m /\ height m' = height m).
Proof.
  split.
  - intros Hreach. apply (inv_checkout_tab _ (reachable_Inv _ Hreach)).
  - simpl. rewrite Update_unbound by (apply binds_app_keys; key_in).
    eexists. split; [reflexivity|]. done.
Qed.

(** C6.  On the Cart tab, outside the confirmation step, with no positive
    quantity in the cart, the "enter" key returns the model unchanged with no
    command: [isCheckingOut] stays false. *)
Theorem C6_confirm_empty_noop (m : model) :
  activeTab m = 1 -> isCheckingOut m = false ->
  (forall i q, cart m !! i = Some q -> q = 0) ->
  Update m (KeyMsg "enter") = Some (m, cmd_nil).
Proof.
  intros Htab Hco Hzero. simpl. unfold tab_keys. simpl.
  rewrite Htab. simpl. unfold cart_keys. rewrite Hco. simpl.
  destruct (hasItems_loop (map_to_list (cart m))) eqn:Hhas; [|done].
  apply hasItems_loop_true in Hhas as (i & q & Hin & Hq).
  apply elem_of_map_to_list in Hin. apply Hzero in Hin. lia.
Qed.

Lemma set_isCheckingOut_undo m :
  isCheckingOut m = false ->
  set_isCheckingOut false (set_isCheckingOut true m) = m.
Proof. destruct m; simpl. by intros ->. Qed.

(** C7.  On the Cart tab, outside the confirmation step, with some positive
    quantity in the cart: "enter" sets [isCheckingOut] and changes nothing
    else; from there "n" and "esc" clear it again, giving back the model
    before "enter" (so still on the Cart tab), and "y" returns the quit
    command. *)
Theorem C7_checkout_dialogue (m : model) :
  activeTab m = 1 -> isCheckingOut m = false -> has_positive (cart m) ->
  let m1 := set_isCheckingOut true m in
  Update m (KeyMsg "enter") = Some (m1, cmd_nil) /\
  Update m1 (KeyMsg "n") = Some (m, cmd_nil) /\
  Update m1 (KeyMsg "esc") = Some (m, cmd_nil) /\
  Update m1 (KeyMsg "y") = Some (m1, tea_Quit) /\
  activeTab m1 = 1 /\ isCheckingOut m1 = true.
Proof.
  intros Htab Hco Hpos m1.
  assert (hasItems_loop (map_to_list (cart m)) = true) as Hhas.
  { apply (hasItems_loop_cart (cart m)); [by unfold range_order|done]. }
  repeat split; try done; simpl; unfold tab_keys; simpl; rewrite Htab; simpl;
    unfold cart_keys; simpl.
  - by rewrite Hco, Hhas.
  - unfold m1. by rewrite set_isCheckingOut_undo.
  - unfold m1. by rewrite set_isCheckingOut_undo.
  - done.
Qed.

(** C8.  A resize message never panics and returns a model that differs from
    the one before in the viewport size only: the tab, the table with its
    cursor, the cart, [isCheckingOut] and the catalog are the same. *)
Theorem C8_resize_frame (m : model) (w h : Z) :
  exists m',
    Update m (WindowSizeMsg w h) = Some (m', cmd_nil) /\
    width m' = w /\ height m' = h /\
    activeTab m' = activeTab m /\ table m' = table m /\
    cart m' = cart m /\ isCheckingOut m' = isCheckingOut m /\
    beverages m' = beverages m.
Proof. by exists (set_size w h m). Qed.

(** A transition changes the cart only through the quantity keys of the Shop
    tab. *)
Lemma Update_cart_change m msg m' cmd :
  Update m msg = Some (m', cmd) -> cart m' <> cart m -> activeTab m' = 0.
Proof.
  destruct msg as [w h|k|]; simpl.
  - by intros [= <- <-].
  - case_decide; [by intros [= <- <-]|].
    assert (cart (tab_keys m k) = cart m) as Hcart
      by (unfold tab_keys; by repeat case_decide).
    set (m1 := tab_keys m k) in *.
    destruct (Z.eqb_spec (activeTab m1) 0) as [Htab|Htab].
    + destruct (shop_keys m1 k) as [m2|] eqn:Hshop; [|discriminate]. simpl.
      destruct (shop_keys_frame _ _ _ Hshop) as (_ & _ & _ & Htab2 & _).
      destruct (table_Update _ _) as [t cmd']. intros [= <- <-] _. simpl.
      congruence.
    + destruct (activeTab m1 =? 1).
      * unfold cart_keys. intros Hupd Hne. exfalso. apply Hne.
        rewrite <- Hcart.
        destruct (isCheckingOut m1); repeat case_decide;
          repeat case_match; by injection Hupd as <- <-.
      * intros [= <- <-] Hne. by rewrite Hcart in Hne.
  - by intros [= <- <-].
Qed.

(** C10.  In a reachable state with [isCheckingOut] set, some cart entry is
    positive; whatever the order in which the cart is visited, a cart view
    that shows the confirmation prompt is the view of a cart with a positive
    entry; and a transition that changes the cart ends on the Shop tab with
    [isCheckingOut] cleared. *)
Theorem C10_prompt_needs_items (m : model) :
  reachable m ->
  (isCheckingOut m = true -> has_positive (cart m)) /\
  (forall entries s,
     range_order (cart m) entries ->
     cartView_in entries m = Some s ->
     contains "Confirm purchase? (y/n)" s = true ->
     has_positive (cart m)) /\
  (forall msg m' cmd,
     Update m msg = Some (m', cmd) -> cart m' <> cart m ->
     activeTab m' = 0 /\ isCheckingOut m' = false).
Proof.
  intros Hreach. split; [|split].
  - apply (inv_checkout_items _ (reachable_Inv _ Hreach)).
  - intros entries s Horder. unfold cartView_in.
    destruct (cartView_loop _ _ _) as [acc|] eqn:Hloop; [|discriminate].
    simpl. destruct (acc_hasItems acc) eqn:Hhas; simpl.
    + intros _ _.
      destruct (cartView_loop_found _ _ _ _ Hloop Hhas)
        as [?|(i & q & Hin & Hq)]; [discriminate|].
      exists i, q. split; [|done].
      apply elem_of_map_to_list. by rewrite <- Horder.
    + rewrite (cartView_loop_nothing _ _ _ _ Hloop Hhas). simpl.
      intros [= <-]. vm_compute. discriminate.
  - intros msg m' cmd Hupd Hne.
    pose proof (Update_cart_change _ _ _ _ Hupd Hne) as Htab.
    split; [done|].
    pose proof (reachable_Inv _ (reachable_step _ _ _ _ Hreach Hupd)) as HI'.
    destruct (isCheckingOut m') eqn:Hco; [|done].
    pose proof (inv_checkout_tab _ HI' Hco). lia.
Qed.

(** ** Floating-point amounts on the catalog are exact *)

Lemma float64_of_int_uint63 q :
  0 <= q < 2 ^ 63 ->
  float64_of_int q = PrimFloat.of_uint63 (Uint63.of_Z q).
Proof.
  intros Hq. unfold float64_of_int.
  rewrite <- (SF2Prim_Prim2SF (PrimFloat.of_uint63 (Uint63.of_Z q))).
  rewrite of_uint63_spec, Uint63.of_Z_spec.
  rewrite Z.mod_small; [reflexivity|]. change Uint63.wB with (2 ^ 63). lia.
Qed.

Lemma ourBeverages_elem b :
  b ∈ ourBeverages ->
  0 <= Stock b <= 100 /\ 1 <= price_halves b /\
  price_halves b * Stock b <= 100 /\
  exists n d, float_exact (Price b) = Qmake n d /\
              2 * n = price_halves b * Z.pos d.
Proof.
  intros Hb. unfold ourBeverages in Hb.
  repeat (apply elem_of_cons in Hb as [->|Hb]);
    [..|by apply elem_of_nil in Hb];
    (repeat split; [| | | |eexists _, _; split; [vm_compute; reflexivity|]]);
    vm_compute; first [reflexivity | intros ?; discriminate].
Qed.

Lemma elem_of_catalog_quantities b q :
  b ∈ ourBeverages -> 1 <= q <= Stock b -> (b, q) ∈ catalog_quantities.
Proof.
  intros Hb Hq. unfold catalog_quantities.
  apply list_elem_of_bind. exists b. split; [|done].
  apply list_elem_of_bind. exists q. split; [by left|].
  apply elem_of_seqZ. lia.
Qed.

Lemma catalog_products_checked :
  forallb (fun bq : Beverage * Z =>
     PrimFloat.Leibniz.eqb
       (Price bq.1 * PrimFloat.of_uint63 (Uint63.of_Z bq.2))%float
       (half_units (price_halves bq.1 * bq.2)))
    catalog_quantities = true.
Proof. vm_compute. reflexivity. Qed.

Lemma half_units_sums_checked :
  forallb (fun k1 => forallb (fun k2 =>
     PrimFloat.Leibniz.eqb (0 + half_units k1 + half_units k2)%float
                           (half_units (k1 + k2)))
     (seqZ 1 100)) (seqZ 1 100) = true.
Proof. vm_compute. reflexivity. Qed.

Lemma half_units_cents_checked :
  forallb (fun k =>
     bool_decide (Fmt.float_cents (half_units k) = Some (false, 50 * k)))
    (seqZ 1 200) = true.
Proof. vm_compute. reflexivity. Qed.

(** The product [Price * float64(quantity)] of [cartView] is exact. *)
Lemma item_price_half b q :
  b ∈ ourBeverages -> 1 <= q <= Stock b ->
  (Price b * float64_of_int q)%float = half_units (price_halves b * q).
Proof.
  intros Hb Hq. destruct (ourBeverages_elem b Hb) as (Hstock & _).
  rewrite float64_of_int_uint63 by lia.
  apply FloatAxioms.Leibniz.eqb_spec.
  pose proof catalog_products_checked as Hall.
  rewrite forallb_forall in Hall.
  apply (Hall (b, q)). apply list_elem_of_In.
  by apply elem_of_catalog_quantities.
Qed.

(** So is the running total over two lines. *)
Lemma half_units_add k1 k2 :
  1 <= k1 <= 100 -> 1 <= k2 <= 100 ->
  (0 + half_units k1 + half_units k2)%float = half_units (k1 + k2).
Proof.
  intros Hk1 Hk2. apply FloatAxioms.Leibniz.eqb_spec.
  pose proof half_units_sums_checked as Hall.
  rewrite forallb_forall in Hall.
  assert (In k1 (seqZ 1 100)) as Hin1
    by (apply list_elem_of_In, elem_of_seqZ; lia).
  specialize (Hall k1 Hin1). rewrite forallb_forall in Hall.
  apply Hall. apply list_elem_of_In, elem_of_seqZ. lia.
Qed.

Lemma half_units_f2 k :
  1 <= k <= 200 -> Fmt.f2 (half_units k) = Fmt.show_signed (false, 50 * k).
Proof.
  intros Hk. pose proof half_units_cents_checked as Hall.
  rewrite forallb_forall in Hall.
  assert (In k (seqZ 1 200)) as Hin
    by (apply list_elem_of_In, elem_of_seqZ; lia).
  apply Hall, bool_decide_eq_true in Hin.
  unfold Fmt.f2. by rewrite Hin.
Qed.

Lemma round_half_even_exact a dn :
  0 < dn -> Fmt.round_half_even (a * dn) dn = a.
Proof.
  intros Hdn. unfold Fmt.round_half_even.
  rewrite Z.div_mul, Z.mod_mul by lia.
  destruct (Z.ltb_spec (2 * 0) dn); [done|lia].
Qed.

Lemma exact_line_total_cents b q :
  b ∈ ourBeverages -> 0 < q ->
  Fmt.Q_cents (exact_line_total b q) = (false, 50 * (price_halves b * q)).
Proof.
  intros Hb Hq.
  destruct (ourBeverages_elem b Hb) as (_ & Hh & _ & n & d & Hexact & Hn).
  unfold exact_line_total, Fmt.Q_cents. rewrite Hexact.
  unfold Qmult, inject_Z. cbn [Qnum Qden]. rewrite Pos.mul_1_r.
  assert (0 < n) by nia.
  f_equal.
  - apply Z.ltb_ge. nia.
  - rewrite Z.abs_eq by nia.
    replace (100 * (n * q)) with (50 * (price_halves b * q) * Z.pos d).
    + by apply round_half_even_exact.
    + transitivity (50 * (2 * n) * q); [rewrite Hn|]; ring.
Qed.

Lemma exact_total_cents b1 q1 b2 q2 :
  b1 ∈ ourBeverages -> 0 < q1 -> b2 ∈ ourBeverages -> 0 < q2 ->
  Fmt.Q_cents (exact_line_total b1 q1 + exact_line_total b2 q2)%Q
  = (false, 50 * (price_halves b1 * q1 + price_halves b2 * q2)).
Proof.
  intros Hb1 Hq1 Hb2 Hq2.
  destruct (ourBeverages_elem b1 Hb1)
    as (_ & Hh1 & _ & n1 & d1 & Hexact1 & Hn1).
  destruct (ourBeverages_elem b2 Hb2)
    as (_ & Hh2 & _ & n2 & d2 & Hexact2 & Hn2).
  unfold exact_line_total, Fmt.Q_cents. rewrite Hexact1, Hexact2.
  unfold Qplus, Qmult, inject_Z. cbn [Qnum Qden]. rewrite !Pos.mul_1_r.
  assert (0 < n1) by nia. assert (0 < n2) by nia.
  assert (0 <= n1 * q1 * Z.pos d2 + n2 * q2 * Z.pos d1) as Hnonneg by nia.
  f_equal.
  - by apply Z.ltb_ge.
  - rewrite (Z.abs_eq _ Hnonneg), Pos2Z.inj_mul.
    replace (100 * (n1 * q1 * Z.pos d2 + n2 * q2 * Z.pos d1))
      with (50 * (price_halves b1 * q1 + price_halves b2 * q2)
            * (Z.pos d1 * Z.pos d2)).
    + apply round_half_even_exact. lia.
    + transitivity (50 * ((2 * n1) * q1 * Z.pos d2
                          + (2 * n2) * q2 * Z.pos d1));
        [rewrite Hn1, Hn2|]; ring.
Qed.

(** ** The cart view of a cart with two positive entries *)

Lemma string_app_assoc (s1 s2 s3 : string) :
  (s1 +:+ s2) +:+ s3 = s1 +:+ s2 +:+ s3.
Proof.
  induction s1 as [|c s1 IH]; [done|].
  unfold String.app; fold String.app. by rewrite IH.
Qed.

(** Entries that are not positive are skipped. *)
Lemma cartView_loop_filter bs entries acc :
  cartView_loop bs (filter (fun e : Z * Z => 0 < e.2) entries) acc
  = cartView_loop bs entries acc.
Proof.
  revert acc. induction entries as [|[i q] rest IH]; intros acc; [done|].
  rewrite filter_cons. cbn [snd]. case_decide as Hq; simpl.
  - destruct (Z.ltb_spec 0 q); [|lia].
    destruct (slice_index bs i); simpl; [apply IH|done].
  - destruct (Z.ltb_spec 0 q); [lia|]. apply IH.
Qed.

Lemma positive_entries_two (c : gmap Z Z) i j qi qj entries :
  i <> j -> c !! i = Some qi -> c !! j = Some qj -> 0 < qi -> 0 < qj ->
  (forall k q, c !! k = Some q -> 0 < q -> k = i \/ k = j) ->
  range_order c entries ->
  let positive := filter (fun e : Z * Z => 0 < e.2) entries in
  positive = [(i, qi); (j, qj)] \/ positive = [(j, qj); (i, qi)].
Proof.
  intros Hij Hi Hj Hqi Hqj Honly Horder positive.
  apply Permutation_length_2_inv. symmetry.
  apply NoDup_Permutation.
  - apply NoDup_filter. unfold range_order in Horder. rewrite Horder.
    apply NoDup_map_to_list.
  - apply NoDup_cons. split; [|apply NoDup_singleton].
    intros Hin%list_elem_of_singleton. congruence.
  - intros [k q]. unfold positive. rewrite list_elem_of_filter.
    unfold range_order in Horder. rewrite Horder, elem_of_map_to_list.
    cbn [snd]. split.
    + intros [Hq Hk]. destruct (Honly k q Hk Hq) as [-> | ->].
      * assert (q = qi) as -> by congruence. left.
      * assert (q = qj) as -> by congruence. right. left.
    + intros Hin. apply elem_of_cons in Hin as [[= -> ->]|Hin]; [done|].
      apply list_elem_of_singleton in Hin as [= -> ->]. done.
Qed.

Lemma cartView_loop_two bs a qa ba b qb bb acc :
  slice_index bs a = Some ba -> slice_index bs b = Some bb ->
  0 < qa -> 0 < qb ->
  cartView_loop bs [(a, qa); (b, qb)] acc
  = Some (mkAcc
            ((acc_s acc
              +:+ cart_line qa ba (Price ba * float64_of_int qa)%float)
             +:+ cart_line qb bb (Price bb * float64_of_int qb)%float)
            (acc_totalPrice acc + Price ba * float64_of_int qa
             + Price bb * float64_of_int qb)%float
            true).
Proof.
  intros Ha Hb Hqa Hqb. simpl.
  destruct (Z.ltb_spec 0 qa); [|lia]. rewrite Ha. simpl.
  destruct (Z.ltb_spec 0 qb); [|lia]. rewrite Hb. simpl. done.
Qed.

(** On the catalog, the line [cartView] writes is the line of the exact
    amount. *)
Lemma cart_line_exact b q :
  b ∈ ourBeverages -> 1 <= q <= Stock b ->
  cart_line q b (Price b * float64_of_int q)%float = exact_cart_line q b.
Proof.
  intros Hb Hq. destruct (ourBeverages_elem b Hb) as (_ & Hh & Hmax & _).
  unfold cart_line, exact_cart_line, Fmt.Q2.
  rewrite item_price_half by done.
  rewrite half_units_f2 by nia.
  rewrite exact_line_total_cents by (done || lia). done.
Qed.

Lemma cart_total_exact b1 q1 b2 q2 :
  b1 ∈ ourBeverages -> 1 <= q1 <= Stock b1 ->
  b2 ∈ ourBeverages -> 1 <= q2 <= Stock b2 ->
  Fmt.f2 (0 + Price b1 * float64_of_int q1 + Price b2 * float64_of_int q2)%float
  = Fmt.Q2 (exact_line_total b1 q1 + exact_line_total b2 q2)%Q.
Proof.
  intros Hb1 Hq1 Hb2 Hq2.
  destruct (ourBeverages_elem b1 Hb1) as (_ & Hh1 & Hmax1 & _).
  destruct (ourBeverages_elem b2 Hb2) as (_ & Hh2 & Hmax2 & _).
  rewrite !item_price_half by done.
  rewrite half_units_add by nia.
  rewrite half_units_f2 by nia.
  unfold Fmt.Q2. rewrite exact_total_cents by (done || lia). done.
Qed.

(** The cart view of a reachable state with exactly two non-zero entries, in
    terms of the lines and the total of the exact amounts. *)
Lemma cartView_two_entries (m : model) (i j qi qj : Z)
    (entries : list (Z * Z)) :
  reachable m ->
  i <> j -> cart m !! i = Some qi -> cart m !! j = Some qj ->
  qi <> 0 -> qj <> 0 ->
  (forall k q, cart m !! k = Some q -> q <> 0 -> k = i \/ k = j) ->
  range_order (cart m) entries ->
  exists bi bj lines,
    slice_index (beverages m) i = Some bi /\
    slice_index (beverages m) j = Some bj /\
    (lines = exact_cart_line qi bi +:+ exact_cart_line qj bj \/
     lines = exact_cart_line qj bj +:+ exact_cart_line qi bi) /\
    cartView_in entries m
    = Some (cart_header +:+ lines +:+ cart_separator
            +:+ cart_total
                  (Fmt.Q2 (exact_line_total bi qi + exact_line_total bj qj)%Q)
            +:+ (if isCheckingOut m then cart_confirm
                 else cart_checkout_hint)).
Proof.
  intros Hreach Hij Hi Hj Hqi Hqj Honly Horder.
  apply reachable_Inv in Hreach.
  destruct (inv_cart _ Hreach i qi Hi) as (bi & Hbi & Hqi').
  destruct (inv_cart _ Hreach j qj Hj) as (bj & Hbj & Hqj').
  assert (forall k b, slice_index (beverages m) k = Some b ->
                      b ∈ ourBeverages) as Hcat.
  { intros k b. rewrite (inv_beverages _ Hreach). unfold slice_index.
    destruct (0 <=? k); [|discriminate]. apply list_elem_of_lookup_2. }
  pose proof (Hcat _ _ Hbi) as Hbi_in. pose proof (Hcat _ _ Hbj) as Hbj_in.
  exists bi, bj.
  assert (filter (fun e : Z * Z => 0 < e.2) entries = [(i, qi); (j, qj)] \/
          filter (fun e : Z * Z => 0 < e.2) entries = [(j, qj); (i, qi)])
    as Hpos.
  { apply (positive_entries_two (cart m)); try done; try lia.
    intros k q Hk Hq. apply (Honly k q Hk). lia. }
  unfold cartView_in. rewrite <- cartView_loop_filter.
  destruct Hpos as [-> | ->].
  - exists (exact_cart_line qi bi +:+ exact_cart_line qj bj).
    repeat split; [done..|by left|].
    rewrite (cartView_loop_two _ i qi bi j qj bj) by (done || lia).
    cbn [mbind option_bind acc_s acc_totalPrice acc_hasItems negb].
    rewrite !cart_line_exact by (done || lia).
    rewrite cart_total_exact by (done || lia).
    by rewrite !string_app_assoc.
  - exists (exact_cart_line qj bj +:+ exact_cart_line qi bi).
    repeat split; [done..|by right|].
    rewrite (cartView_loop_two _ j qj bj i qi bi) by (done || lia).
    cbn [mbind option_bind acc_s acc_totalPrice acc_hasItems negb].
    rewrite !cart_line_exact by (done || lia).
    rewrite cart_total_exact by (done || lia).
    rewrite !string_app_assoc. unfold Fmt.Q2.
    rewrite !exact_total_cents by (done || lia).
    by rewrite Z.add_comm.
Qed.

(** ** Where the cart view does not depend on the visiting order *)

(** With at most one positive entry in the cart, every visiting order gives
    the same cart view. *)
Lemma cartView_in_at_most_one (m : model) entries1 entries2 :
  range_order (cart m) entries1 -> range_order (cart m) entries2 ->
  (forall i j qi qj, cart m !! i = Some qi -> cart m !! j = Some qj ->
                     0 < qi -> 0 < qj -> i = j) ->
  cartView_in entries1 m = cartView_in entries2 m.
Proof.
  intros Horder1 Horder2 Hone. unfold cartView_in.
  rewrite <- (cartView_loop_filter _ entries1).
  rewrite <- (cartView_loop_filter _ entries2).
  set (positive := fun e : Z * Z => 0 < e.2).
  assert (filter positive entries1 ≡ₚ filter positive entries2) as Hperm.
  { unfold range_order in *. by rewrite Horder1, Horder2. }
  assert (NoDup (filter positive entries1)) as Hnodup.
  { apply NoDup_filter. unfold range_order in Horder1. rewrite Horder1.
    apply NoDup_map_to_list. }
  assert (forall e1 e2, e1 ∈ filter positive entries1 ->
                        e2 ∈ filter positive entries1 -> e1 = e2) as Hsame.
  { intros [i qi] [j qj].
    rewrite !list_elem_of_filter. unfold range_order in Horder1.
    rewrite Horder1, !elem_of_map_to_list. unfold positive. cbn [snd].
    intros [Hqi Hi] [Hqj Hj].
    assert (i = j) as -> by eauto. congruence. }
  destruct (filter positive entries1) as [|e1 [|e2 rest]].
  - apply Permutation_nil_l in Hperm as <-. done.
  - apply Permutation_singleton_l in Hperm as <-. done.
  - exfalso. apply NoDup_cons in Hnodup as [Hnotin _]. apply Hnotin.
    rewrite (Hsame e1 e2); [left|left|right; left].
Qed.

(** On the Shop tab [View] does not visit the cart. *)
Lemma View_in_shop {lip : Lipgloss} (m : model) entries1 entries2 :
  activeTab m <> 1 -> View_in entries1 m = View_in entries2 m.
Proof.
  intros Htab. unfold View_in.
  by destruct (Z.eqb_spec (activeTab m) 1).
Qed.

End Properties.

(** * Runs of the program with the reference table widget *)

Lemma reachable_run msgs : reachable (run msgs).
Proof. apply reachable_steps, reachable_init. Qed.

Lemma cart_two_items : cart (run two_items) = {[ 0 := 2; 1 := 1 ]}.
Proof. vm_compute. reflexivity. Qed.

Lemma range_order_two_items_01 :
  range_order (cart (run two_items)) [(0, 2); (1, 1)].
Proof.
  unfold range_order. rewrite cart_two_items.
  apply NoDup_Permutation.
  - apply NoDup_cons. split; [|apply NoDup_singleton].
    intros Hin%list_elem_of_singleton. discriminate.
  - apply NoDup_map_to_list.
  - intros [k q]. rewrite elem_of_map_to_list.
    rewrite lookup_insert_Some, lookup_singleton_Some.
    rewrite elem_of_cons, list_elem_of_singleton.
    split.
    + intros [[= -> ->]|[= -> ->]]; [by left|by right].
    + intros [[<- <-]|[_ [<- <-]]]; [by left|by right].
Qed.

Lemma range_order_two_items_10 :
  range_order (cart (run two_items)) [(1, 1); (0, 2)].
Proof.
  unfold range_order. rewrite <- range_order_two_items_01. apply perm_swap.
Qed.

Example cartView_two_items_01 :
  cartView_in [(0, 2); (1, 1)] (run two_items)
  = Some "Your Current Order:

  2x Club-Mate            @ €1.50 each = €3.00
  1x Espresso             @ €1.00 each = €1.00

  -------------------------------------------
  Total: €4.00


Press 'enter' to checkout.".
Proof. vm_compute. reflexivity. Qed.

Example cartView_two_items_10 :
  cartView_in [(1, 1); (0, 2)] (run two_items)
  = Some "Your Current Order:

  1x Espresso             @ €1.00 each = €1.00
  2x Club-Mate            @ €1.50 each = €3.00

  -------------------------------------------
  Total: €4.00


Press 'enter' to checkout.".
Proof. vm_compute. reflexivity. Qed.

(** C3.  The cart view is not a function of the state alone.  In the reachable
    state with two Club-Mate and one Espresso in the cart, [cartView] may
    return the two lines in either order, depending on the order in which the
    [range] visits the map: two calls on the same state can return different
    strings, and so can two calls of [View] (read with a styling that leaves
    the text as it is). *)
Theorem C3_render_depends_on_range_order :
  let m := run two_items in
  reachable m /\
  (exists s1 s2, cartView_returns m s1 /\ cartView_returns m s2 /\ s1 <> s2) /\
  (exists s1 s2,
     View_returns (lip := plain_lipgloss) m s1 /\
     View_returns (lip := plain_lipgloss) m s2 /\ s1 <> s2).
Proof.
  intros m. split; [apply reachable_run|]. split.
  - eexists _, _. split; [|split].
    + exists [(0, 2); (1, 1)].
      split; [apply range_order_two_items_01|apply cartView_two_items_01].
    + exists [(1, 1); (0, 2)].
      split; [apply range_order_two_items_10|apply cartView_two_items_10].
    + discriminate.
  - eexists _, _. split; [|split].
    + exists [(0, 2); (1, 1)].
      split; [apply range_order_two_items_01|vm_compute; reflexivity].
    + exists [(1, 1); (0, 2)].
      split; [apply range_order_two_items_10|vm_compute; reflexivity].
    + discriminate.
Qed.

(** * The claims at concrete runs *)

Lemma C1_reachable_bounds_witness :
  let m := run beer_ceiling in
  reachable m /\
  (0 <= table_Cursor (table m) < Z.of_nat (length (beverages m)) /\
   forall i q, cart m !! i = Some q ->
     exists b, slice_index (beverages m) i = Some b /\ 0 <= q <= Stock b).
Proof.
  intros m. split; [apply reachable_run|].
  apply (C1_reachable_bounds m). apply reachable_run.
Defined.

Lemma C2_Update_total_witness :
  let m := run two_items in
  let msg := KeyMsg "x" in
  reachable m /\ cursor_ok m /\ unrecognized (tbl := simple_table) msg /\
  (exists m' cmd, Update m msg = Some (m', cmd)) /\
  Update m msg = Some (m, cmd_nil).
Proof.
  intros m msg.
  assert (unrecognized (tbl := simple_table) msg) as Hun.
  { split; [|reflexivity].
    apply (bool_decide_unpack ("x" ∉ app_keys)). vm_compute. exact I. }
  destruct (C2_Update_total m msg) as [Htotal Hreach].
  destruct (Hreach (reachable_run two_items)) as [Hcur Hsame].
  split; [apply reachable_run|]. split; [exact Hcur|]. split; [exact Hun|].
  split; [exact (Htotal Hcur)|exact (Hsame Hun)].
Defined.

Lemma C4_boundary_noop_witness :
  let m := run beer_ceiling in
  let m0 := run [] in
  (reachable m /\ activeTab m = 0 /\
   slice_index (beverages m) (table_Cursor (table m))
   = Some (mkBeverage "Beer" 2.5 6) /\
   cart_get (cart m) (table_Cursor (table m)) = 6 /\
   Update m (KeyMsg "+") = Some (m, cmd_nil)) /\
  (reachable m0 /\ activeTab m0 = 0 /\
   cart_get (cart m0) (table_Cursor (table m0)) = 0 /\
   Update m0 (KeyMsg "-") = Some (m0, cmd_nil)).
Proof.
  intros m m0.
  assert (activeTab m = 0) as Htab by (vm_compute; reflexivity).
  assert (slice_index (beverages m) (table_Cursor (table m))
          = Some (mkBeverage "Beer" 2.5 6)) as Hbeer
    by (vm_compute; reflexivity).
  assert (cart_get (cart m) (table_Cursor (table m)) = 6) as Hfull
    by (vm_compute; reflexivity).
  assert (activeTab m0 = 0) as Htab0 by (vm_compute; reflexivity).
  assert (cart_get (cart m0) (table_Cursor (table m0)) = 0) as Hnone
    by (vm_compute; reflexivity).
  split.
  - split; [apply reachable_run|]. split; [exact Htab|].
    split; [exact Hbeer|]. split; [exact Hfull|].
    apply (proj1 (C4_boundary_noop m (reachable_run beer_ceiling) Htab)
             "+" (mkBeverage "Beer" 2.5 6)); [|exact Hbeer|exact Hfull].
    apply list_elem_of_In. simpl. tauto.
  - split; [apply reachable_run|]. split; [exact Htab0|].
    split; [exact Hnone|].
    apply (proj2 (C4_boundary_noop m0 (reachable_run []) Htab0) "-");
      [|exact Hnone].
    apply list_elem_of_In. simpl. tauto.
Defined.

Lemma C5_checkout_only_on_cart_witness :
  let m := run confirming in
  reachable m /\ isCheckingOut m = true /\ activeTab m = 1 /\
  exists m',
    Update m (KeyMsg "s") = Some (m', cmd_nil) /\
    isCheckingOut m' = false /\ activeTab m' = 0 /\
    cart m' = cart m /\ beverages m' = beverages m /\
    width m' = width m /\ height m' = height m.
Proof.
  intros m.
  assert (isCheckingOut m = true) as Hco by (vm_compute; reflexivity).
  destruct (C5_checkout_only_on_cart m) as [Honly Hshop].
  split; [apply reachable_run|]. split; [exact Hco|].
  split; [exact (Honly (reachable_run confirming) Hco)|exact Hshop].
Defined.

Lemma cart_emptied : cart (run emptied) = {[ 0 := 0 ]}.
Proof. vm_compute. reflexivity. Qed.

Lemma C6_confirm_empty_noop_witness :
  let m := run emptied in
  cart m !! 0 = Some 0 /\
  Update m (KeyMsg "enter") = Some (m, cmd_nil).
Proof.
  intros m. split; [vm_compute; reflexivity|].
  apply (C6_confirm_empty_noop m).
  - vm_compute. reflexivity.
  - vm_compute. reflexivity.
  - intros i q. unfold m. rewrite cart_emptied.
    intros [_ Hq]%lookup_singleton_Some. symmetry. exact Hq.
Defined.

Lemma C7_checkout_dialogue_witness :
  let m := run two_items in
  let m1 := set_isCheckingOut true m in
  Update m (KeyMsg "enter") = Some (m1, cmd_nil) /\
  Update m1 (KeyMsg "n") = Some (m, cmd_nil) /\
  Update m1 (KeyMsg "esc") = Some (m, cmd_nil) /\
  Update m1 (KeyMsg "y") = Some (m1, tea_Quit) /\
  activeTab m1 = 1 /\ isCheckingOut m1 = true.
Proof.
  intros m.
  apply (C7_checkout_dialogue m).
  - vm_compute. reflexivity.
  - vm_compute. reflexivity.
  - exists 0, 2. split; [vm_compute; reflexivity|lia].
Defined.

Lemma C10_prompt_needs_items_witness :
  let m := run confirming in
  reachable m /\ isCheckingOut m = true /\ has_positive (cart m).
Proof.
  intros m.
  assert (isCheckingOut m = true) as Hco by (vm_compute; reflexivity).
  split; [apply reachable_run|]. split; [exact Hco|].
  exact (proj1 (C10_prompt_needs_items m (reachable_run confirming)) Hco).
Defined.

(** * The scenarios of the spec, run on the model *)

(** The prices of the catalog are the decimals written in the source. *)
Example catalog_prices :
  map (fun b => Qred (float_exact (Price b))) ourBeverages
  = [3 # 2; 1 # 1; 2 # 1; 1 # 2; 5 # 2]%Q.
Proof. vm_compute. reflexivity. Qed.

(** Scenario A: three increments of item 0, then two decrements. *)
Example scenario_A :
  cart (run (repeat (KeyMsg "+") 3)) !! 0 = Some 3 /\
  cart (run (repeat (KeyMsg "+") 3 ++ repeat (KeyMsg "-") 2)%list) !! 0
  = Some 1.
Proof. split; vm_compute; reflexivity. Qed.

(** Scenario B: item 2 has stock 12; the thirteenth increment changes
    nothing. *)
Example scenario_B :
  let keys n : list Msg :=
    ([KeyMsg "down"; KeyMsg "down"] ++ repeat (KeyMsg "+") n)%list in
  cart (run (keys 12%nat)) !! 2 = Some 12 /\
  run (keys 13%nat) = run (keys 12%nat).
Proof. split; vm_compute; reflexivity. Qed.

(** Scenario C: confirming an empty cart. *)
Example scenario_C :
  let m := run [KeyMsg "c"] in
  Update m (KeyMsg "enter") = Some (m, cmd_nil) /\
  isCheckingOut m = false /\
  cartView_in (map_to_list (cart m)) m
  = Some "Your Current Order:

  Your cart is empty!


Go to the 'Shop' tab to add items.".
Proof. repeat split; vm_compute; reflexivity. Qed.

(** Scenario D: two Espresso; confirm, decline, confirm, accept. *)
Example scenario_D :
  let m := run [KeyMsg "down"; KeyMsg "+"; KeyMsg "+"; KeyMsg "c"] in
  cart m !! 1 = Some 2 /\
  isCheckingOut (step m (KeyMsg "enter")) = true /\
  isCheckingOut (steps [KeyMsg "enter"; KeyMsg "n"] m) = false /\
  activeTab (steps [KeyMsg "enter"; KeyMsg "n"] m) = 1 /\
  (snd <$> Update (steps [KeyMsg "enter"; KeyMsg "n"; KeyMsg "enter"] m)
             (KeyMsg "y")) = Some tea_Quit.
Proof. repeat split; vm_compute; reflexivity. Qed.

(** * Further properties of the controller *)

(** The exact total of a cart: the sum, in the rationals, of the exact line
    totals of its positive entries, in the listing order of the map. *)
Fixpoint exact_total (bs : list Beverage) (entries : list (Z * Z)) : Q :=
  match entries with
  | [] => 0%Q
  | (i, q) :: rest =>
      ((if 0 <? q then
          match slice_index bs i with
          | Some b => exact_line_total b q
          | None => 0
          end
        else 0) + exact_total bs rest)%Q
  end.

(** The lines of the exact amounts of the positive entries, in the order of
    [entries]. *)
Fixpoint exact_cart_lines (bs : list Beverage) (entries : list (Z * Z))
  : string :=
  match entries with
  | [] => ""
  | (i, q) :: rest =>
      (if 0 <? q then
         match slice_index bs i with
         | Some b => exact_cart_line q b
         | None => ""
         end
       else "") +:+ exact_cart_lines bs rest
  end.

Section Further.

Context {tbl : Table}.

Ltac key_in := apply list_elem_of_In; simpl; tauto.
Ltac key_sub :=
  match goal with
  | Hin : _ ∈ _ |- _ ∈ _ =>
      apply list_elem_of_In; apply list_elem_of_In in Hin;
      simpl in *; tauto
  end.
Ltac key_absurd :=
  repeat match goal with
         | H : _ ∈ _ |- _ => apply list_elem_of_In in H; simpl in H
         end;
  intuition (subst; discriminate).

Lemma slice_index_None {A} (l : list A) i :
  slice_index l i = None <-> ~ (0 <= i < Z.of_nat (length l)).
Proof.
  split.
  - intros Hnone Hi. destruct (slice_index_is_Some l i Hi) as [x Hx].
    congruence.
  - intros Hi. destruct (slice_index l i) as [x|] eqn:Hx; [|done].
    apply slice_index_Some in Hx. done.
Qed.

Lemma tab_keys_other m k : k <> "s" -> k <> "c" -> tab_keys m k = m.
Proof. intros Hs Hc. unfold tab_keys. by rewrite !decide_False. Qed.

Lemma shop_keys_other m k :
  k ∉ ["+"; "="; "right"] -> k ∉ ["-"; "left"] -> shop_keys m k = Some m.
Proof. intros Hinc Hdec. unfold shop_keys. by rewrite !decide_False. Qed.

(** X1.  [Update] panics in one situation only: an increment key on the Shop
    tab while the cursor of the table is not an index of the catalog.  The
    decrement keys, which read the map only, never panic. *)
Theorem Update_panics_iff (m : model) (msg : Msg) :
  Update m msg = None <->
  exists k, msg = KeyMsg k /\ k ∈ ["+"; "="; "right"] /\
            activeTab m = 0 /\ ~ cursor_ok m.
Proof.
  split.
  - destruct msg as [w h|k|]; simpl; [discriminate| |discriminate].
    case_decide as Hquit; [discriminate|].
    destruct (Z.eqb_spec (activeTab (tab_keys m k)) 0) as [Htab|Htab].
    + destruct (shop_keys (tab_keys m k) k) as [m2|] eqn:Hshop.
      { simpl. by destruct (table_Update _ _). }
      intros _. unfold shop_keys in Hshop.
      case_decide as Hinc.
      * assert (tab_keys m k = m) as Hsame.
        { apply tab_keys_other; intros ->; key_absurd. }
        rewrite Hsame in *.
        destruct (slice_index _ _) eqn:Hidx.
        { simpl in Hshop. by destruct (_ <? _). }
        exists k. repeat split; try done.
        by apply slice_index_None in Hidx.
      * case_decide; [by destruct (_ <? _)|done].
    + by destruct (_ =? 1).
  - intros (k & -> & Hinc & Htab & Hcur). simpl.
    rewrite decide_False by (intros Hq; key_absurd).
    rewrite tab_keys_other by (intros ->; key_absurd).
    rewrite Htab. simpl. unfold shop_keys. rewrite decide_True by done.
    apply slice_index_None in Hcur. unfold cursor_ok in Hcur.
    by rewrite Hcur.
Qed.

(** X2.  On a key the table does not bind, [Update] returns the quit command
    exactly for "ctrl+c" and "q", and for "y" on the Cart tab during the
    confirmation step. *)
Theorem Update_quits_iff (m : model) (k : string) :
  table_binds k = false ->
  (exists m', Update m (KeyMsg k) = Some (m', tea_Quit)) <->
  k ∈ ["ctrl+c"; "q"] \/
  (k = "y" /\ activeTab m = 1 /\ isCheckingOut m = true).
Proof.
  intros Hunbound. simpl. split.
  - intros [m' Hupd]. case_decide as Hquit; [by left|]. right.
    destruct (Z.eqb_spec (activeTab (tab_keys m k)) 0) as [Htab|Htab].
    + destruct (shop_keys _ _); [|discriminate]. simpl in Hupd.
      rewrite Update_unbound in Hupd by done. discriminate.
    + destruct (Z.eqb_spec (activeTab (tab_keys m k)) 1) as [Htab1|Htab1];
        [|discriminate].
      unfold cart_keys, tab_keys in *.
      repeat case_decide; subst; simpl in *; try discriminate.
      all: destruct (isCheckingOut m) eqn:Hco; try discriminate; try done.
      all: destruct (hasItems_loop _); discriminate.
  - intros [Hquit|(-> & Htab & Hco)].
    + exists m. by rewrite decide_True.
    + exists m. simpl. unfold tab_keys. simpl. rewrite Htab. simpl.
      unfold cart_keys. by rewrite Hco.
Qed.

(** X3.  The confirmation step is entered in one way only: by "enter" on the
    Cart tab with a positive quantity in the cart, which changes nothing but
    [isCheckingOut]. *)
Theorem checkout_entered_by_enter (m m' : model) (msg : Msg) (cmd : Cmd) :
  Update m msg = Some (m', cmd) ->
  isCheckingOut m = false -> isCheckingOut m' = true ->
  msg = KeyMsg "enter" /\ activeTab m = 1 /\ has_positive (cart m) /\
  m' = set_isCheckingOut true m /\ cmd = cmd_nil.
Proof.
  intros Hupd Hco Hco'. destruct msg as [w h|k|]; simpl in Hupd.
  - injection Hupd as <- <-. simpl in Hco'. congruence.
  - case_decide as Hquit; [injection Hupd as <- <-; congruence|].
    assert (isCheckingOut (tab_keys m k) = false) as Hco1.
    { unfold tab_keys. by repeat case_decide. }
    destruct (Z.eqb_spec (activeTab (tab_keys m k)) 0) as [Htab|Htab].
    + destruct (shop_keys _ _) as [m2|] eqn:Hshop; [|discriminate].
      simpl in Hupd. destruct (table_Update _ _) as [t c].
      injection Hupd as <- <-. simpl in Hco'.
      destruct (shop_keys_frame _ _ _ Hshop) as (_ & _ & Hco2 & _).
      congruence.
    + destruct (Z.eqb_spec (activeTab (tab_keys m k)) 1) as [Htab1|Htab1];
        [|injection Hupd as <- <-; congruence].
      unfold cart_keys in Hupd. rewrite Hco1 in Hupd.
      case_decide as Henter; [|injection Hupd as <- <-; congruence].
      subst k. unfold tab_keys in *. simpl in *.
      destruct (hasItems_loop _) eqn:Hhas;
        [|injection Hupd as <- <-; congruence].
      injection Hupd as <- <-. repeat split; try done.
      apply (hasItems_loop_cart (cart m) (map_to_list (cart m)));
        [by unfold range_order|done].
  - injection Hupd as <- <-. congruence.
Qed.

(** X4.  A transition changes the cart only on a quantity key pressed on the
    Shop tab, and then only the entry at the cursor. *)
Theorem cart_changed_by_quantity_keys (m m' : model) (msg : Msg) (cmd : Cmd) :
  Update m msg = Some (m', cmd) -> cart m' <> cart m ->
  (exists k, msg = KeyMsg k /\ k ∈ ["+"; "="; "right"; "-"; "left"]) /\
  activeTab m = 0 /\
  forall j, j <> table_Cursor (table m) -> cart m' !! j = cart m !! j.
Proof.
  intros Hupd Hne. destruct msg as [w h|k|]; simpl in Hupd.
  - by injection Hupd as <- <-.
  - case_decide as Hquit; [by injection Hupd as <- <-|].
    assert (cart (tab_keys m k) = cart m) as Hcart
      by (unfold tab_keys; by repeat case_decide).
    destruct (Z.eqb_spec (activeTab (tab_keys m k)) 0) as [Htab|Htab].
    + destruct (shop_keys _ _) as [m2|] eqn:Hshop; [|discriminate].
      simpl in Hupd. destruct (table_Update _ _) as [t c].
      injection Hupd as <- <-. simpl in *.
      unfold shop_keys in Hshop.
      case_decide as Hinc; [|case_decide as Hdec].
      * assert (tab_keys m k = m) as Hsame.
        { apply tab_keys_other; intros ->; key_absurd. }
        rewrite Hsame in *.
        destruct (slice_index _ _); [|discriminate]. simpl in Hshop.
        destruct (_ <? _); injection Hshop as <-; [|done]. simpl in *.
        split; [exists k; split; [done|key_sub]|]. split; [done|].
        intros j Hj. by rewrite lookup_insert_ne.
      * assert (tab_keys m k = m) as Hsame.
        { apply tab_keys_other; intros ->; key_absurd. }
        rewrite Hsame in *.
        destruct (_ <? _); injection Hshop as <-; [|done]. simpl in *.
        split; [exists k; split; [done|key_sub]|]. split; [done|].
        intros j Hj. by rewrite lookup_insert_ne.
      * injection Hshop as <-. congruence.
    + exfalso. apply Hne. rewrite <- Hcart.
      destruct (_ =? 1); [|by injection Hupd as <- <-].
      unfold cart_keys in Hupd.
      destruct (isCheckingOut _); repeat case_decide; repeat case_match;
        by injection Hupd as <- <-.
  - by injection Hupd as <- <-.
Qed.

(** X5.  No transition touches the catalog; only a resize changes the
    viewport size; only the tab keys "s" and "c" change the active tab. *)
Theorem Update_frame (m m' : model) (msg : Msg) (cmd : Cmd) :
  Update m msg = Some (m', cmd) ->
  beverages m' = beverages m /\
  ((width m' <> width m \/ height m' <> height m) ->
   exists w h, msg = WindowSizeMsg w h) /\
  (activeTab m' <> activeTab m -> msg = KeyMsg "s" \/ msg = KeyMsg "c").
Proof.
  intros Hupd. destruct msg as [w h|k|]; simpl in Hupd.
  - injection Hupd as <- <-. simpl. repeat split; eauto. done.
  - assert (beverages m' = beverages m /\ width m' = width m /\
            height m' = height m /\
            activeTab m' = activeTab (tab_keys m k)) as (Hb & Hw & Hh & Ht).
    { case_decide as Hquit.
      - injection Hupd as <- <-.
        rewrite tab_keys_other by (intros ->; key_absurd).
        done.
      - assert (beverages (tab_keys m k) = beverages m /\
                width (tab_keys m k) = width m /\
                height (tab_keys m k) = height m) as (Hb & Hw & Hh)
          by (unfold tab_keys; by repeat case_decide).
        destruct (activeTab (tab_keys m k) =? 0).
        + destruct (shop_keys _ _) as [m2|] eqn:Hshop; [|discriminate].
          simpl in Hupd. destruct (table_Update _ _) as [t c].
          injection Hupd as <- <-. simpl.
          destruct (shop_keys_frame _ _ _ Hshop)
            as (Hb2 & _ & _ & Ht2 & Hw2 & Hh2).
          repeat split; congruence.
        + destruct (activeTab (tab_keys m k) =? 1);
            [|by injection Hupd as <- <-].
          unfold cart_keys in Hupd.
          destruct (isCheckingOut _); repeat case_decide; repeat case_match;
            by injection Hupd as <- <-. }
    split; [done|]. split; [intros [?|?]; congruence|].
    intros Htab. rewrite Ht in Htab. unfold tab_keys in Htab.
    repeat case_decide; subst; auto; by destruct Htab.
  - injection Hupd as <- <-. repeat split; try done. intros [?|?]; done.
Qed.

(** X6.  [Update] does not read the viewport size: on a key, resizing first
    and pressing the key gives the model obtained by pressing the key and
    resizing afterwards, with the same command (or the same panic). *)
Theorem Update_key_after_resize (m : model) (w h : Z) (k : string) :
  Update (set_size w h m) (KeyMsg k)
  = match Update m (KeyMsg k) with
    | Some (m', cmd) => Some (set_size w h m', cmd)
    | None => None
    end.
Proof.
  simpl. case_decide as Hquit; [done|].
  assert (tab_keys (set_size w h m) k = set_size w h (tab_keys m k)) as ->
    by (unfold tab_keys; by repeat case_decide).
  set (m1 := tab_keys m k). simpl.
  destruct (activeTab m1 =? 0).
  - assert (shop_keys (set_size w h m1) k = set_size w h <$> shop_keys m1 k)
      as ->.
    { unfold shop_keys. simpl. repeat case_decide; try done.
      - destruct (slice_index _ _); [|done]. simpl. by destruct (_ <? _).
      - by destruct (_ <? _). }
    destruct (shop_keys m1 k) as [m2|]; [|done]. simpl.
    by destruct (table_Update _ _).
  - destruct (activeTab m1 =? 1); [|done].
    unfold cart_keys. simpl.
    destruct (isCheckingOut m1); repeat case_decide; try done.
    by destruct (hasItems_loop _).
Qed.

(** ** The quantity keys *)

Lemma make_rows_ext bs (c1 c2 : gmap Z Z) :
  (forall j, cart_get c1 j = cart_get c2 j) ->
  make_rows bs c1 = make_rows bs c2.
Proof.
  intros Hget. unfold make_rows. apply imap_ext. intros i b _.
  unfold make_row. by rewrite Hget.
Qed.

(** A quantity key on the Shop tab of a model that satisfies the invariant:
    the table ignores the key and shows the rows of the new cart. *)
Lemma quantity_key_step m k m2 :
  Inv m -> activeTab m = 0 ->
  k ∈ ["+"; "="; "right"; "-"; "left"] ->
  shop_keys m k = Some m2 ->
  exists m',
    Update m (KeyMsg k) = Some (m', cmd_nil) /\
    cart m' = cart m2 /\ beverages m' = beverages m /\
    table_Cursor (table m') = table_Cursor (table m) /\
    table_Rows (table m') = make_rows (beverages m) (cart m2) /\
    activeTab m' = 0 /\ isCheckingOut m' = isCheckingOut m.
Proof.
  intros HI Htab Hk Hshop.
  destruct (shop_keys_frame _ _ _ Hshop) as (Hb & Ht & Hco & Hta & _ & _).
  simpl. rewrite decide_False by (intros Hq; key_absurd).
  rewrite tab_keys_other by (intros ->; key_absurd).
  rewrite Htab. simpl. rewrite Hshop. simpl.
  rewrite Update_unbound by (apply binds_app_keys; key_sub).
  eexists. split; [reflexivity|]. simpl.
  rewrite Hb, Ht. repeat split; try congruence.
  - apply SetRows_Cursor. rewrite length_make_rows. apply (inv_cursor _ HI).
  - apply SetRows_Rows.
Qed.

Lemma Inv_quantity m b :
  Inv m -> slice_index (beverages m) (table_Cursor (table m)) = Some b ->
  0 <= cart_get (cart m) (table_Cursor (table m)) <= Stock b /\
  0 <= Stock b <= 100.
Proof.
  intros HI Hb.
  assert (0 <= Stock b <= 100) as Hstock.
  { apply (ourBeverages_Stock (table_Cursor (table m))).
    by rewrite <- (inv_beverages _ HI). }
  split; [|done]. unfold cart_get.
  destruct (cart m !! _) as [q|] eqn:Hq; simpl; [|lia].
  destruct (inv_cart _ HI _ _ Hq) as (b' & Hb' & Hbound).
  assert (b' = b) as -> by congruence. done.
Qed.

(** X7.  On the Shop tab of a reachable state, an increment key pressed while
    the quantity at the cursor is below the stock adds one to that quantity
    (without wrap-around), leaves the cursor where it is, stays on the Shop
    tab, and the table shows the rows of the new cart. *)
Theorem increment_below_stock (m : model) (k : string) (b : Beverage) :
  reachable m -> activeTab m = 0 -> k ∈ ["+"; "="; "right"] ->
  let cursor := table_Cursor (table m) in
  slice_index (beverages m) cursor = Some b ->
  cart_get (cart m) cursor < Stock b ->
  exists m',
    Update m (KeyMsg k) = Some (m', cmd_nil) /\
    cart m' = <[cursor := cart_get (cart m) cursor + 1]> (cart m) /\
    table_Cursor (table m') = cursor /\
    table_Rows (table m') = make_rows (beverages m) (cart m') /\
    activeTab m' = 0 /\ isCheckingOut m' = false.
Proof.
  intros Hreach Htab Hk cursor Hb Hlt. apply reachable_Inv in Hreach.
  destruct (Inv_quantity m b Hreach Hb) as [Hq Hstock]. fold cursor in Hq.
  assert (shop_keys m k
          = Some (set_cart (<[cursor := cart_get (cart m) cursor + 1]>
                              (cart m)) m)) as Hshop.
  { unfold shop_keys. fold cursor. rewrite decide_True by done.
    rewrite Hb. simpl. destruct (Z.ltb_spec (cart_get (cart m) cursor) (Stock b));
      [|lia].
    by rewrite int_wrap_small by lia. }
  destruct (quantity_key_step m k _ Hreach Htab ltac:(key_sub) Hshop)
    as (m' & Hupd & Hcart & _ & Hcur & Hrows & Htab' & Hco).
  exists m'. simpl in *. rewrite Hcart. repeat split; try done.
  rewrite Hco. destruct (isCheckingOut m) eqn:E; [|done].
  pose proof (inv_checkout_tab _ Hreach E). lia.
Qed.

(** X8.  On the Shop tab of a reachable state, a decrement key pressed while
    the quantity at the cursor is positive takes one from that quantity,
    leaves the cursor where it is, stays on the Shop tab, and the table shows
    the rows of the new cart. *)
Theorem decrement_above_zero (m : model) (k : string) :
  reachable m -> activeTab m = 0 -> k ∈ ["-"; "left"] ->
  let cursor := table_Cursor (table m) in
  0 < cart_get (cart m) cursor ->
  exists m',
    Update m (KeyMsg k) = Some (m', cmd_nil) /\
    cart m' = <[cursor := cart_get (cart m) cursor - 1]> (cart m) /\
    table_Cursor (table m') = cursor /\
    table_Rows (table m') = make_rows (beverages m) (cart m') /\
    activeTab m' = 0 /\ isCheckingOut m' = false.
Proof.
  intros Hreach Htab Hk cursor Hpos. apply reachable_Inv in Hreach.
  destruct (slice_index_is_Some (beverages m) cursor (inv_cursor _ Hreach))
    as [b Hb].
  destruct (Inv_quantity m b Hreach Hb) as [Hq Hstock]. fold cursor in Hq.
  assert (shop_keys m k
          = Some (set_cart (<[cursor := cart_get (cart m) cursor - 1]>
                              (cart m)) m)) as Hshop.
  { unfold shop_keys. fold cursor.
    rewrite decide_False by (intros Hinc; key_absurd).
    rewrite decide_True by done.
    destruct (Z.ltb_spec 0 (cart_get (cart m) cursor)); [|lia].
    by rewrite int_wrap_small by lia. }
  destruct (quantity_key_step m k _ Hreach Htab ltac:(key_sub) Hshop)
    as (m' & Hupd & Hcart & _ & Hcur & Hrows & Htab' & Hco).
  exists m'. simpl in *. rewrite Hcart. repeat split; try done.
  rewrite Hco. destruct (isCheckingOut m) eqn:E; [|done].
  pose proof (inv_checkout_tab _ Hreach E). lia.
Qed.

Lemma cart_get_insert (c : gmap Z Z) i j q :
  cart_get (<[i := q]> c) j = if decide (i = j) then q else cart_get c j.
Proof.
  unfold cart_get. case_decide as Hij.
  - subst. by rewrite lookup_insert_eq.
  - by rewrite lookup_insert_ne.
Qed.

Lemma steps_repeat_S m msg n m1 cmd :
  Update m msg = Some (m1, cmd) ->
  steps (repeat msg (S n)) m = steps (repeat msg n) m1.
Proof.
  intros Hupd. change (repeat msg (S n)) with (msg :: repeat msg n).
  unfold steps. cbn [fold_left]. unfold step at 2. by rewrite Hupd.
Qed.

(** One press of an increment key, at the ceiling or below it. *)
Lemma press_increment m k b :
  Inv m -> activeTab m = 0 -> k ∈ ["+"; "="; "right"] ->
  slice_index (beverages m) (table_Cursor (table m)) = Some b ->
  exists m',
    Update m (KeyMsg k) = Some (m', cmd_nil) /\
    activeTab m' = 0 /\ beverages m' = beverages m /\
    table_Cursor (table m') = table_Cursor (table m) /\
    cart_get (cart m') (table_Cursor (table m))
    = Z.min (cart_get (cart m) (table_Cursor (table m)) + 1) (Stock b).
Proof.
  intros HI Htab Hk Hb. set (cursor := table_Cursor (table m)) in *.
  destruct (Inv_quantity m b HI Hb) as [Hq Hstock]. fold cursor in Hq.
  assert (exists m2, shop_keys m k = Some m2 /\
            cart_get (cart m2) cursor
            = Z.min (cart_get (cart m) cursor + 1) (Stock b))
    as (m2 & Hshop & Hget).
  { unfold shop_keys. fold cursor. rewrite decide_True by done.
    rewrite Hb. simpl.
    destruct (Z.ltb_spec (cart_get (cart m) cursor) (Stock b)).
    - eexists. split; [reflexivity|]. simpl.
      rewrite cart_get_insert, decide_True by done.
      rewrite int_wrap_small by lia. lia.
    - exists m. split; [done|lia]. }
  destruct (quantity_key_step m k _ HI Htab ltac:(key_sub) Hshop)
    as (m' & Hupd & Hcart & Hbev & Hcur & _ & Htab' & _).
  exists m'. rewrite Hcart. done.
Qed.

(** One press of a decrement key, at zero or above it. *)
Lemma press_decrement m k :
  Inv m -> activeTab m = 0 -> k ∈ ["-"; "left"] ->
  exists m',
    Update m (KeyMsg k) = Some (m', cmd_nil) /\
    activeTab m' = 0 /\
    table_Cursor (table m') = table_Cursor (table m) /\
    cart_get (cart m') (table_Cursor (table m))
    = Z.max (cart_get (cart m) (table_Cursor (table m)) - 1) 0.
Proof.
  intros HI Htab Hk. set (cursor := table_Cursor (table m)) in *.
  destruct (slice_index_is_Some (beverages m) cursor (inv_cursor _ HI))
    as [b Hb].
  destruct (Inv_quantity m b HI Hb) as [Hq Hstock]. fold cursor in Hq.
  assert (exists m2, shop_keys m k = Some m2 /\
            cart_get (cart m2) cursor
            = Z.max (cart_get (cart m) cursor - 1) 0)
    as (m2 & Hshop & Hget).
  { unfold shop_keys. fold cursor.
    rewrite decide_False by (intros Hinc; key_absurd).
    rewrite decide_True by done.
    destruct (Z.ltb_spec 0 (cart_get (cart m) cursor)).
    - eexists. split; [reflexivity|]. simpl.
      rewrite cart_get_insert, decide_True by done.
      rewrite int_wrap_small by lia. lia.
    - exists m. split; [done|lia]. }
  destruct (quantity_key_step m k _ HI Htab ltac:(key_sub) Hshop)
    as (m' & Hupd & Hcart & _ & Hcur & _ & Htab' & _).
  exists m'. rewrite Hcart. done.
Qed.

(** X9.  Pressing an increment key [n] times on the Shop tab of a reachable
    state raises the quantity at the cursor by [n], up to the stock of that
    beverage and no further; the cursor and the tab stay. *)
Theorem repeated_increment (m : model) (k : string) (b : Beverage) (n : nat) :
  reachable m -> activeTab m = 0 -> k ∈ ["+"; "="; "right"] ->
  let cursor := table_Cursor (table m) in
  slice_index (beverages m) cursor = Some b ->
  let m' := steps (repeat (KeyMsg k) n) m in
  cart_get (cart m') cursor
  = Z.min (cart_get (cart m) cursor + Z.of_nat n) (Stock b) /\
  table_Cursor (table m') = cursor /\ activeTab m' = 0.
Proof.
  intros Hreach Htab Hk cursor Hb. subst cursor.
  revert m Hreach Htab Hb. induction n as [|n IH]; intros m Hreach Htab Hb.
  - simpl. pose proof (reachable_Inv _ Hreach) as HI.
    destruct (Inv_quantity m b HI Hb). repeat split; try done. lia.
  - pose proof (reachable_Inv _ Hreach) as HI.
    destruct (press_increment m k b HI Htab Hk Hb)
      as (m1 & Hupd & Htab1 & Hbev1 & Hcur1 & Hget1).
    cbv zeta. rewrite (steps_repeat_S _ _ _ _ _ Hupd).
    assert (reachable m1) as Hreach1 by (by eapply reachable_step).
    rewrite <- Hcur1, <- Hbev1 in Hb.
    destruct (IH m1 Hreach1 Htab1 Hb) as (Hget & Hcur & Htab').
    rewrite Hcur1 in Hget, Hcur. rewrite Hget, Hget1.
    repeat split; try done. lia.
Qed.

(** X10.  Pressing a decrement key [n] times on the Shop tab of a reachable
    state lowers the quantity at the cursor by [n], down to 0 and no further;
    the cursor and the tab stay. *)
Theorem repeated_decrement (m : model) (k : string) (n : nat) :
  reachable m -> activeTab m = 0 -> k ∈ ["-"; "left"] ->
  let cursor := table_Cursor (table m) in
  let m' := steps (repeat (KeyMsg k) n) m in
  cart_get (cart m') cursor
  = Z.max (cart_get (cart m) cursor - Z.of_nat n) 0 /\
  table_Cursor (table m') = cursor /\ activeTab m' = 0.
Proof.
  intros Hreach Htab Hk cursor. subst cursor.
  revert m Hreach Htab. induction n as [|n IH]; intros m Hreach Htab.
  - simpl. pose proof (reachable_Inv _ Hreach) as HI.
    destruct (slice_index_is_Some (beverages m) (table_Cursor (table m))
                (inv_cursor _ HI)) as [b Hb].
    destruct (Inv_quantity m b HI Hb). repeat split; try done. lia.
  - pose proof (reachable_Inv _ Hreach) as HI.
    destruct (press_decrement m k HI Htab Hk)
      as (m1 & Hupd & Htab1 & Hcur1 & Hget1).
    cbv zeta. rewrite (steps_repeat_S _ _ _ _ _ Hupd).
    assert (reachable m1) as Hreach1 by (by eapply reachable_step).
    destruct (IH m1 Hreach1 Htab1) as (Hget & Hcur & Htab').
    rewrite Hcur1 in Hget, Hcur. rewrite Hget, Hget1.
    repeat split; try done. lia.
Qed.

(** X11.  On the Shop tab of a reachable state, below the stock, an increment
    key followed by a decrement key restores every quantity, the rows of the
    table and the cursor.  The map itself then holds an entry at the cursor,
    with quantity 0 if there was none before. *)
Theorem increment_decrement_round_trip (m : model) (kinc kdec : string)
    (b : Beverage) :
  reachable m -> activeTab m = 0 ->
  kinc ∈ ["+"; "="; "right"] -> kdec ∈ ["-"; "left"] ->
  let cursor := table_Cursor (table m) in
  slice_index (beverages m) cursor = Some b ->
  cart_get (cart m) cursor < Stock b ->
  exists m1 m2,
    Update m (KeyMsg kinc) = Some (m1, cmd_nil) /\
    Update m1 (KeyMsg kdec) = Some (m2, cmd_nil) /\
    cart m2 = <[cursor := cart_get (cart m) cursor]> (cart m) /\
    (forall j, cart_get (cart m2) j = cart_get (cart m) j) /\
    table_Rows (table m2) = table_Rows (table m) /\
    table_Cursor (table m2) = cursor.
Proof.
  intros Hreach Htab Hkinc Hkdec cursor Hb Hlt.
  pose proof (reachable_Inv _ Hreach) as HI.
  destruct (Inv_quantity m b HI Hb) as [Hq Hstock]. fold cursor in Hq.
  set (q := cart_get (cart m) cursor) in *.
  assert (shop_keys m kinc
          = Some (set_cart (<[cursor := q + 1]> (cart m)) m)) as Hshop1.
  { unfold shop_keys. fold cursor. rewrite decide_True by done.
    rewrite Hb. simpl. fold q. destruct (Z.ltb_spec q (Stock b)); [|lia].
    by rewrite int_wrap_small by lia. }
  destruct (quantity_key_step m kinc _ HI Htab ltac:(key_sub) Hshop1)
    as (m1 & Hupd1 & Hcart1 & Hbev1 & Hcur1 & _ & Htab1 & _).
  simpl in Hcart1.
  pose proof (Inv_Update _ _ _ _ HI Hupd1) as HI1.
  assert (shop_keys m1 kdec
          = Some (set_cart (<[cursor := q]> (cart m1)) m1)) as Hshop2.
  { unfold shop_keys. rewrite Hcur1. fold cursor.
    rewrite decide_False by (intros Hinc; key_absurd).
    rewrite decide_True by done.
    rewrite Hcart1, cart_get_insert, decide_True by done.
    destruct (Z.ltb_spec 0 (q + 1)); [|lia].
    rewrite int_wrap_small by lia. do 3 f_equal. lia. }
  destruct (quantity_key_step m1 kdec _ HI1 Htab1 ltac:(key_sub) Hshop2)
    as (m2 & Hupd2 & Hcart2 & Hbev2 & Hcur2 & Hrows2 & _ & _).
  simpl in Hcart2, Hrows2.
  assert (cart m2 = <[cursor := q]> (cart m)) as Hcart.
  { by rewrite Hcart2, Hcart1, insert_insert_eq. }
  assert (forall j, cart_get (cart m2) j = cart_get (cart m) j) as Hget.
  { intros j. rewrite Hcart, cart_get_insert. case_decide; by subst. }
  exists m1, m2. repeat split; try done.
  - rewrite Hrows2, Hbev1, (inv_rows _ HI), <- Hcart2.
    by apply make_rows_ext.
  - by rewrite Hcur2.
Qed.

(** ** Invariants of the reachable states *)

(** X12.  In every reachable state, also on the Cart tab, the table holds one
    row per beverage of the catalog, in catalog order: its name, its price to
    two decimals, its stock and the quantity the cart has for it (0 if the
    cart has no entry); and the active tab is 0 or 1. *)
Theorem reachable_rows_show_cart (m : model) :
  reachable m ->
  length (table_Rows (table m)) = length ourBeverages /\
  (forall i b, ourBeverages !! i = Some b ->
     table_Rows (table m) !! i
     = Some [ Name b; "€" +:+ Fmt.f2 (Price b); Fmt.d (Stock b);
              Fmt.d (cart_get (cart m) (Z.of_nat i)) ]) /\
  (activeTab m = 0 \/ activeTab m = 1).
Proof.
  intros Hreach. apply reachable_Inv in Hreach.
  rewrite (inv_rows _ Hreach), (inv_beverages _ Hreach).
  split; [apply length_make_rows|]. split; [|apply (inv_tab _ Hreach)].
  intros i b Hb. unfold make_rows. rewrite list_lookup_imap, Hb. done.
Qed.

(** X13.  The [hasItems] loop of the Cart tab, which stops at the first
    positive quantity, gives the same answer for every order in which the map
    is visited: it tells whether the cart has a positive quantity. *)
Theorem hasItems_loop_any_order (c : gmap Z Z) (entries1 entries2 : list (Z * Z)) :
  range_order c entries1 -> range_order c entries2 ->
  hasItems_loop entries1 = hasItems_loop entries2 /\
  (hasItems_loop entries1 = true <-> has_positive c).
Proof.
  intros Horder1 Horder2.
  pose proof (hasItems_loop_cart c entries1 Horder1) as H1.
  pose proof (hasItems_loop_cart c entries2 Horder2) as H2.
  split; [|done].
  destruct (hasItems_loop entries1), (hasItems_loop entries2); try done.
  - symmetry. apply H2, H1. done.
  - apply H1, H2. done.
Qed.

(** ** The cart view *)

Lemma filter_none {A} (P : A -> Prop) `{forall x, Decision (P x)} (l : list A) :
  (forall x, x ∈ l -> ~ P x) -> filter P l = [].
Proof.
  induction l as [|x l IH]; intros Hnone; [done|].
  rewrite filter_cons_False by (apply Hnone; left).
  apply IH. intros y Hy. apply Hnone. by right.
Qed.

Lemma cartView_loop_None bs entries acc :
  cartView_loop bs entries acc = None <->
  exists i q, (i, q) ∈ entries /\ 0 < q /\ slice_index bs i = None.
Proof.
  revert acc. induction entries as [|[i q] rest IH]; intros acc; simpl.
  - split; [discriminate|]. intros (i & q & Hin & _).
    by apply elem_of_nil in Hin.
  - destruct (Z.ltb_spec 0 q) as [Hq|Hq].
    + destruct (slice_index bs i) as [b|] eqn:Hb; simpl.
      * rewrite IH. split.
        -- intros (i' & q' & Hin & Hq' & Hnone).
           exists i', q'. split; [by right|done].
        -- intros (i' & q' & Hin & Hq' & Hnone).
           apply elem_of_cons in Hin as [[= -> ->]|Hin]; [congruence|eauto].
      * split; [|done]. intros _. exists i, q. split; [left|done].
    + simpl. rewrite IH. split.
      * intros (i' & q' & Hin & Hq' & Hnone).
        exists i', q'. split; [by right|done].
      * intros (i' & q' & Hin & Hq' & Hnone).
        apply elem_of_cons in Hin as [[= -> ->]|Hin]; [lia|eauto].
Qed.

(** X14.  [cartView] panics exactly when it visits an entry with a positive
    quantity whose key is not an index of the catalog; entries with quantity
    0 or below are never looked up, whatever their key. *)
Theorem cartView_panics_iff (m : model) (entries : list (Z * Z)) :
  cartView_in entries m = None <->
  exists i q, (i, q) ∈ entries /\ 0 < q /\ slice_index (beverages m) i = None.
Proof.
  rewrite <- (cartView_loop_None _ _ (mkAcc cart_header 0%float false)).
  unfold cartView_in. by destruct (cartView_loop _ _ _).
Qed.

(** X15.  A cart with no positive quantity, be it empty or made of entries
    with quantity 0, is shown as the empty-cart message, for every visiting
    order and whatever the other fields of the model hold: no line, no total,
    no checkout hint and no confirmation prompt. *)
Theorem cartView_without_items (m : model) (entries : list (Z * Z)) :
  range_order (cart m) entries -> ~ has_positive (cart m) ->
  cartView_in entries m = Some (cart_header +:+ cart_empty).
Proof.
  intros Horder Hnone. unfold cartView_in.
  rewrite <- cartView_loop_filter.
  replace (filter (fun e : Z * Z => 0 < e.2) entries) with (@nil (Z * Z)).
  { done. }
  symmetry. apply filter_none.
  intros [i q] Hin Hq. apply Hnone. exists i, q. split; [|done].
  apply elem_of_map_to_list. unfold range_order in Horder. by rewrite <- Horder.
Qed.

Lemma cartView_loop_app bs l1 l2 acc :
  cartView_loop bs (l1 ++ l2)%list acc
  = cartView_loop bs l1 acc ≫= cartView_loop bs l2.
Proof.
  revert acc. induction l1 as [|e l1 IH]; intros acc; simpl; [done|].
  destruct (cartView_step bs acc e); simpl; [apply IH|done].
Qed.

Lemma positive_lookup (c : gmap Z Z) k q :
  0 < q -> c !! k = Some q <-> cart_get c k = q.
Proof.
  intros Hq. split; [apply cart_get_lookup|].
  intros <-. apply cart_get_nonzero. lia.
Qed.

Lemma positive_entries_perm (c1 c2 : gmap Z Z) :
  (forall j, cart_get c1 j = cart_get c2 j) ->
  filter (fun e : Z * Z => 0 < e.2) (map_to_list c1)
  ≡ₚ filter (fun e : Z * Z => 0 < e.2) (map_to_list c2).
Proof.
  intros Hget. apply NoDup_Permutation.
  - apply NoDup_filter, NoDup_map_to_list.
  - apply NoDup_filter, NoDup_map_to_list.
  - intros [k q]. rewrite !list_elem_of_filter, !elem_of_map_to_list.
    cbn [snd]. split; intros [Hq Hk]; (split; [done|]).
    + apply positive_lookup; [done|]. rewrite <- Hget.
      by apply positive_lookup.
    + apply positive_lookup; [done|]. rewrite Hget.
      by apply positive_lookup.
Qed.

Lemma cartView_returns_mono (m1 m2 : model) s :
  beverages m1 = beverages m2 -> isCheckingOut m1 = isCheckingOut m2 ->
  (forall j, cart_get (cart m1) j = cart_get (cart m2) j) ->
  cartView_returns m1 s -> cartView_returns m2 s.
Proof.
  intros Hbev Hco Hget (entries1 & Horder1 & Hview).
  set (positive := fun e : Z * Z => 0 < e.2).
  exists (filter positive entries1
          ++ filter (fun e => ~ positive e) (map_to_list (cart m2)))%list.
  split.
  - unfold range_order in *.
    rewrite <- (filter_app_complement positive (map_to_list (cart m2))) at 2.
    apply Permutation_app; [|done].
    rewrite Horder1. by apply positive_entries_perm.
  - unfold cartView_in in *. rewrite <- Hbev, <- Hco.
    rewrite cartView_loop_app.
    unfold positive at 1. rewrite cartView_loop_filter.
    destruct (cartView_loop (beverages m1) entries1 _) as [acc|];
      [|discriminate].
    cbn [mbind option_bind].
    rewrite <- cartView_loop_filter.
    replace (filter _ (filter _ _)) with (@nil (Z * Z)); [done|].
    symmetry. apply filter_none.
    intros e [Hnot _]%list_elem_of_filter Hpos. by apply Hnot.
Qed.

(** X16.  An entry with quantity 0 counts as no entry: two models with the
    same catalog and the same [isCheckingOut] whose carts give the same
    quantity at every index, present or absent, have the same possible cart
    views. *)
Theorem cartView_zero_entries (m1 m2 : model) (s : string) :
  beverages m1 = beverages m2 -> isCheckingOut m1 = isCheckingOut m2 ->
  (forall j, cart_get (cart m1) j = cart_get (cart m2) j) ->
  cartView_returns m1 s <-> cartView_returns m2 s.
Proof.
  intros Hbev Hco Hget. split; apply cartView_returns_mono; done.
Qed.

(** ** The cart view of a reachable state, for any number of entries *)

(** Amounts counted in halves: what an entry adds to the total, and what a
    catalog index can add at most. *)
Definition entry_halves (e : Z * Z) : Z :=
  if 0 <? e.2 then
    match slice_index ourBeverages e.1 with
    | Some b => price_halves b * e.2
    | None => 0
    end
  else 0.

Definition index_cap (i : Z) : Z :=
  match slice_index ourBeverages i with
  | Some b => price_halves b * Stock b
  | None => 0
  end.

Definition sumZ (l : list Z) : Z := foldr Z.add 0 l.

Definition is_halves (x : Q) (k : Z) : Prop :=
  2 * Qnum x = k * Z.pos (Qden x).

Lemma half_units_zero : half_units 0 = 0%float.
Proof. vm_compute. reflexivity. Qed.

Lemma running_totals_checked :
  forallb (fun k1 => forallb (fun k2 =>
     PrimFloat.Leibniz.eqb (half_units k1 + half_units k2)%float
                           (half_units (k1 + k2)))
     (seqZ 1 100)) (seqZ 0 351) = true.
Proof. vm_compute. reflexivity. Qed.

Lemma totals_cents_checked :
  forallb (fun k =>
     bool_decide (Fmt.float_cents (half_units k) = Some (false, 50 * k)))
    (seqZ 0 351) = true.
Proof. vm_compute. reflexivity. Qed.

Lemma running_total_add k1 k2 :
  0 <= k1 <= 350 -> 1 <= k2 <= 100 ->
  (half_units k1 + half_units k2)%float = half_units (k1 + k2).
Proof.
  intros Hk1 Hk2. apply FloatAxioms.Leibniz.eqb_spec.
  pose proof running_totals_checked as Hall.
  rewrite forallb_forall in Hall.
  assert (In k1 (seqZ 0 351)) as Hin1
    by (apply list_elem_of_In, elem_of_seqZ; lia).
  specialize (Hall k1 Hin1). rewrite forallb_forall in Hall.
  apply Hall. apply list_elem_of_In, elem_of_seqZ. lia.
Qed.

Lemma total_f2 k :
  0 <= k <= 350 -> Fmt.f2 (half_units k) = Fmt.show_signed (false, 50 * k).
Proof.
  intros Hk. pose proof totals_cents_checked as Hall.
  rewrite forallb_forall in Hall.
  assert (In k (seqZ 0 351)) as Hin
    by (apply list_elem_of_In, elem_of_seqZ; lia).
  apply Hall, bool_decide_eq_true in Hin.
  unfold Fmt.f2. by rewrite Hin.
Qed.

Lemma sumZ_cons x l : sumZ (x :: l) = x + sumZ l.
Proof. reflexivity. Qed.

Lemma sumZ_Permutation l1 l2 : l1 ≡ₚ l2 -> sumZ l1 = sumZ l2.
Proof.
  induction 1 as [|x l1 l2 _ IH|x y l|l1 l2 l3 _ IH1 _ IH2];
    rewrite ?sumZ_cons; lia.
Qed.

Lemma sumZ_submseteq (f : Z -> Z) (l1 l2 : list Z) :
  (forall x, 0 <= f x) -> l1 ⊆+ l2 -> sumZ (f <$> l1) <= sumZ (f <$> l2).
Proof.
  intros Hf.
  induction 1 as [|x l1 l2 _ IH|x y l|x l1 l2 _ IH|l1 l2 l3 _ IH1 _ IH2];
    rewrite ?fmap_cons, ?sumZ_cons; try lia.
  specialize (Hf x). lia.
Qed.

Lemma index_cap_nonneg i : 0 <= index_cap i.
Proof.
  unfold index_cap. destruct (slice_index ourBeverages i) as [b|] eqn:Hb; [|lia].
  destruct (ourBeverages_elem b) as (? & ? & _).
  { unfold slice_index in Hb. destruct (0 <=? i); [|discriminate].
    by apply list_elem_of_lookup_2 in Hb. }
  nia.
Qed.

Lemma slice_index_elem {A} (l : list A) i x :
  slice_index l i = Some x -> x ∈ l.
Proof.
  unfold slice_index. destruct (0 <=? i); [|discriminate].
  apply list_elem_of_lookup_2.
Qed.

(** An entry as the invariant has it: at an index of the catalog, with a
    quantity within the stock. *)
Definition entry_ok (e : Z * Z) : Prop :=
  exists b, slice_index ourBeverages e.1 = Some b /\ 0 <= e.2 <= Stock b.

Lemma entry_halves_bounds e :
  entry_ok e ->
  0 <= entry_halves e <= index_cap e.1 /\
  (0 < e.2 -> 1 <= entry_halves e <= 100).
Proof.
  intros (b & Hb & Hq). unfold entry_halves, index_cap. rewrite Hb.
  destruct (ourBeverages_elem b (slice_index_elem _ _ _ Hb))
    as (Hstock & Hh & Hcap & _).
  destruct (Z.ltb_spec 0 e.2); split; try nia.
Qed.

Lemma total_halves_cap (l : list (Z * Z)) :
  Forall entry_ok l ->
  sumZ (entry_halves <$> l) <= sumZ (index_cap <$> l.*1).
Proof.
  induction 1 as [|e l He _ IH]; [done|].
  rewrite !fmap_cons, !sumZ_cons.
  pose proof (entry_halves_bounds e He). lia.
Qed.

Lemma total_halves_nonneg (l : list (Z * Z)) :
  Forall entry_ok l -> 0 <= sumZ (entry_halves <$> l).
Proof.
  induction 1 as [|e l He _ IH]; [done|].
  rewrite !fmap_cons, !sumZ_cons.
  pose proof (entry_halves_bounds e He). lia.
Qed.

(** With distinct keys, the total stays within what the whole stock of the
    catalog costs: 175.00, that is 350 halves. *)
Lemma total_halves_bound (l : list (Z * Z)) :
  Forall entry_ok l -> NoDup l.*1 -> sumZ (entry_halves <$> l) <= 350.
Proof.
  intros Hok Hnodup.
  etransitivity; [by apply total_halves_cap|].
  transitivity (sumZ (index_cap <$> seqZ 0 5)); [|by vm_compute].
  apply sumZ_submseteq; [apply index_cap_nonneg|].
  apply NoDup_submseteq; [done|].
  intros i [[i' q] [-> Hin]]%list_elem_of_fmap.
  rewrite Forall_forall in Hok. destruct (Hok _ Hin) as (b & Hb & _).
  apply slice_index_Some in Hb. simpl in *. apply elem_of_seqZ. lia.
Qed.

Lemma is_halves_plus x y kx ky :
  is_halves x kx -> is_halves y ky -> is_halves (x + y) (kx + ky).
Proof.
  unfold is_halves, Qplus. cbn [Qnum Qden]. intros Hx Hy.
  rewrite Pos2Z.inj_mul.
  transitivity ((2 * Qnum x) * Z.pos (Qden y) + (2 * Qnum y) * Z.pos (Qden x));
    [|rewrite Hx, Hy]; ring.
Qed.

Lemma is_halves_line b q :
  b ∈ ourBeverages -> is_halves (exact_line_total b q) (price_halves b * q).
Proof.
  intros Hb. destruct (ourBeverages_elem b Hb) as (_ & _ & _ & n & d & Hx & Hn).
  unfold is_halves, exact_line_total. rewrite Hx.
  unfold Qmult, inject_Z. cbn [Qnum Qden]. rewrite Pos.mul_1_r.
  transitivity ((2 * n) * q); [|rewrite Hn]; ring.
Qed.

Lemma is_halves_cents x k :
  is_halves x k -> 0 <= k -> Fmt.Q_cents x = (false, 50 * k).
Proof.
  unfold is_halves, Fmt.Q_cents. intros Hx Hk.
  assert (0 <= Qnum x) by nia.
  f_equal; [by apply Z.ltb_ge|].
  rewrite Z.abs_eq by done.
  replace (100 * Qnum x) with (50 * k * Z.pos (Qden x)).
  - by apply round_half_even_exact.
  - transitivity (50 * (2 * Qnum x)); [rewrite Hx|]; ring.
Qed.

Lemma exact_total_halves (l : list (Z * Z)) :
  is_halves (exact_total ourBeverages l) (sumZ (entry_halves <$> l)).
Proof.
  induction l as [|[i q] l IH]; [done|].
  cbn [exact_total fmap list_fmap]. unfold sumZ. cbn [foldr].
  apply is_halves_plus; [|exact IH].
  unfold entry_halves. cbn [fst snd].
  destruct (0 <? q); [|done].
  destruct (slice_index ourBeverages i) as [b|] eqn:Hb; [|done].
  apply is_halves_line. by apply slice_index_elem in Hb.
Qed.

(** The loop of [cartView] on entries that satisfy the invariant, from a
    running total of [k0] halves. *)
Lemma cartView_loop_exact (entries : list (Z * Z)) (acc : cart_acc) (k0 : Z) :
  Forall entry_ok entries ->
  0 <= k0 -> k0 + sumZ (entry_halves <$> entries) <= 350 ->
  acc_totalPrice acc = half_units k0 ->
  cartView_loop ourBeverages entries acc
  = Some (mkAcc (acc_s acc +:+ exact_cart_lines ourBeverages entries)
                (half_units (k0 + sumZ (entry_halves <$> entries)))
                (acc_hasItems acc || hasItems_loop entries)).
Proof.
  intros Hok. revert acc k0.
  induction Hok as [|[i q] l He Hok IH]; intros acc k0 Hk0 Hsum Hacc.
  - simpl. destruct acc as [s t h]. simpl in *. subst t.
    unfold sumZ. simpl. rewrite Z.add_0_r, orb_false_r.
    f_equal. f_equal. clear. induction s as [|c s IHs]; [done|].
    unfold String.app; fold String.app. by rewrite <- IHs.
  - pose proof (entry_halves_bounds _ He) as [Hb1 Hb2].
    pose proof (total_halves_nonneg l Hok) as Hrest.
    rewrite fmap_cons, sumZ_cons in *.
    cbn [cartView_loop cartView_step exact_cart_lines hasItems_loop].
    cbn [fst snd] in *.
    destruct (Z.ltb_spec 0 q) as [Hq|Hq].
    + destruct He as (b & Hb & Hstock). cbn [fst snd] in *.
      assert (entry_halves (i, q) = price_halves b * q) as Hentry.
      { unfold entry_halves. cbn [fst snd]. rewrite Hb.
        by destruct (Z.ltb_spec 0 q); [|lia]. }
      rewrite Hentry in *. rewrite Hb. cbn [mbind option_bind].
      specialize (Hb2 Hq).
      rewrite cart_line_exact by (eauto using slice_index_elem || lia).
      rewrite (IH _ (k0 + price_halves b * q));
        cbn [acc_s acc_totalPrice acc_hasItems].
      * rewrite orb_true_r, string_app_assoc. do 3 f_equal. lia.
      * lia.
      * lia.
      * rewrite Hacc, item_price_half by (eauto using slice_index_elem || lia).
        apply running_total_add; lia.
    + assert (entry_halves (i, q) = 0) as Hentry.
      { unfold entry_halves. cbn [fst snd].
        by destruct (Z.ltb_spec 0 q); [lia|]. }
      rewrite Hentry in *. cbn [mbind option_bind].
      rewrite (IH _ k0) by (done || lia).
      change ("" +:+ exact_cart_lines ourBeverages l)
        with (exact_cart_lines ourBeverages l).
      do 3 f_equal.
Qed.

Lemma string_app_nil_r (s : string) : s +:+ "" = s.
Proof.
  induction s as [|c s IH]; [done|].
  unfold String.app; fold String.app. by rewrite IH.
Qed.

Lemma exact_cart_lines_none bs entries :
  hasItems_loop entries = false -> exact_cart_lines bs entries = "".
Proof.
  induction entries as [|[i q] rest IH]; [done|]. simpl.
  destruct (0 <? q); [discriminate|]. exact IH.
Qed.

Lemma reachable_entries (m : model) entries :
  Inv m -> range_order (cart m) entries ->
  Forall entry_ok entries /\ NoDup entries.*1.
Proof.
  intros HI Horder. unfold range_order in Horder. split.
  - apply Forall_forall. intros [i q] Hin. rewrite Horder in Hin.
    apply elem_of_map_to_list in Hin.
    destruct (inv_cart _ HI _ _ Hin) as (b & Hb & Hq).
    exists b. by rewrite <- (inv_beverages _ HI).
  - rewrite Horder. apply NoDup_fst_map_to_list.
Qed.

(** The cart view of a reachable state, for any number of entries, in terms
    of the lines and the total of the exact amounts. *)
Lemma cartView_reachable_lines (m : model) (entries : list (Z * Z)) :
  reachable m -> range_order (cart m) entries ->
  cartView_in entries m
  = Some
      (if hasItems_loop (map_to_list (cart m)) then
         cart_header +:+ exact_cart_lines (beverages m) entries
         +:+ cart_separator
         +:+ cart_total
               (Fmt.Q2 (exact_total (beverages m) (map_to_list (cart m))))
         +:+ (if isCheckingOut m then cart_confirm else cart_checkout_hint)
       else cart_header +:+ cart_empty).
Proof.
  intros Hreach Horder. apply reachable_Inv in Hreach.
  destruct (reachable_entries m entries Hreach Horder) as [Hok Hnodup].
  pose proof (total_halves_bound entries Hok Hnodup) as Hbound.
  pose proof (total_halves_nonneg entries Hok) as Hnonneg.
  assert (hasItems_loop (map_to_list (cart m)) = hasItems_loop entries)
    as Hhas.
  { pose proof (hasItems_loop_cart (cart m) entries Horder) as H1.
    assert (range_order (cart m) (map_to_list (cart m))) as Hself
      by (by unfold range_order).
    pose proof (hasItems_loop_cart (cart m) _ Hself) as H2.
    destruct (hasItems_loop entries), (hasItems_loop (map_to_list _));
      try done.
    - apply H2, H1. done.
    - symmetry. apply H1, H2. done. }
  unfold cartView_in. rewrite (inv_beverages _ Hreach), Hhas.
  rewrite (cartView_loop_exact entries _ 0 Hok);
    [|done|lia|by rewrite half_units_zero].
  cbn [mbind option_bind acc_s acc_totalPrice acc_hasItems orb].
  destruct (hasItems_loop entries) eqn:Hitems; cbn [negb].
  - rewrite total_f2 by lia.
    unfold Fmt.Q2.
    rewrite (is_halves_cents _ (sumZ (entry_halves <$> entries))).
    + by rewrite string_app_assoc.
    + unfold range_order in Horder.
      rewrite (sumZ_Permutation _ (entry_halves <$> map_to_list (cart m)))
        by (by rewrite Horder).
      apply exact_total_halves.
    + done.
  - by rewrite exact_cart_lines_none, string_app_nil_r.
Qed.

(** X18.  In a reachable state [View] never panics, for any styling and any
    visiting order of the cart. *)
Theorem View_reachable_total {lip : Lipgloss} (m : model)
    (entries : list (Z * Z)) :
  reachable m -> range_order (cart m) entries ->
  is_Some (View_in entries m).
Proof.
  intros Hreach Horder.
  apply reachable_Inv in Hreach.
  assert (is_Some (cartView_in entries m)) as [content Hcontent].
  { apply not_eq_None_Some. unfold cartView_in.
    destruct (cartView_loop _ _ _) eqn:Hloop; [done|].
    apply cartView_loop_None in Hloop as (i & q & Hin & Hq & Hnone).
    unfold range_order in Horder. rewrite Horder in Hin.
    apply elem_of_map_to_list in Hin.
    destruct (inv_cart _ Hreach _ _ Hin) as (b & Hb & _). congruence. }
  unfold View_in. rewrite Hcontent.
  destruct (activeTab m =? 1); by eexists.
Qed.

End Further.

(** * The further properties at concrete runs *)

Ltac in_keys := apply list_elem_of_In; simpl; tauto.

(** A model whose table has its cursor below the catalog: not a reachable
    one. *)
Definition cursor_astray : @model simple_table :=
  @mkModel simple_table ourBeverages (SimpleTable.mk [] 7) ∅ false 0 0 0.

(** Club-Mate added and removed, one Espresso, then the Cart tab: the cart
    holds [0 := 0] and [1 := 1]. *)
Definition one_item : list Msg :=
  [KeyMsg "+"; KeyMsg "-"; KeyMsg "down"; KeyMsg "+"; KeyMsg "c"].

(** One Club-Mate, two Fritz-Kola and three Beer, then the Cart tab. *)
Definition three_items : list Msg :=
  [KeyMsg "+"; KeyMsg "down"; KeyMsg "down"; KeyMsg "+"; KeyMsg "+";
   KeyMsg "down"; KeyMsg "down"; KeyMsg "+"; KeyMsg "+"; KeyMsg "+";
   KeyMsg "c"].

Example Update_panics_cursor_astray :
  Update cursor_astray (KeyMsg "+") = None /\
  Update cursor_astray (KeyMsg "-") <> None.
Proof. split; vm_compute; [reflexivity|discriminate]. Qed.

Example cartView_panics_outside_catalog :
  cartView_in [(7, 1)] (set_cart {[ 7 := 1 ]} cursor_astray) = None /\
  cartView_in [(7, 0)] (set_cart {[ 7 := 0 ]} cursor_astray)
  = Some (cart_header +:+ cart_empty).
Proof. split; vm_compute; reflexivity. Qed.

Lemma Update_quits_iff_witness :
  let m := run confirming in
  table_binds (Table := simple_table) "y" = false /\
  exists m', Update m (KeyMsg "y") = Some (m', tea_Quit).
Proof.
  intros m. split; [reflexivity|].
  apply (Update_quits_iff m "y"); [reflexivity|].
  right. repeat split; vm_compute; reflexivity.
Defined.

Lemma checkout_entered_by_enter_witness :
  let m := run two_items in
  let m' := run confirming in
  Update m (KeyMsg "enter") = Some (m', cmd_nil) /\
  KeyMsg "enter" = KeyMsg "enter" /\ activeTab m = 1 /\
  has_positive (cart m) /\ m' = set_isCheckingOut true m /\
  cmd_nil = cmd_nil.
Proof.
  intros m m'.
  assert (Update m (KeyMsg "enter") = Some (m', cmd_nil)) as Hupd
    by (vm_compute; reflexivity).
  split; [exact Hupd|].
  apply (checkout_entered_by_enter m m' (KeyMsg "enter") cmd_nil Hupd);
    vm_compute; reflexivity.
Defined.

Lemma cart_changed_by_quantity_keys_witness :
  let m := run [] in
  let m' := run [KeyMsg "+"] in
  Update m (KeyMsg "+") = Some (m', cmd_nil) /\ cart m' <> cart m /\
  (exists k, KeyMsg "+" = KeyMsg k /\ k ∈ ["+"; "="; "right"; "-"; "left"]) /\
  activeTab m = 0 /\
  forall j, j <> table_Cursor (table m) -> cart m' !! j = cart m !! j.
Proof.
  intros m m'.
  assert (Update m (KeyMsg "+") = Some (m', cmd_nil)) as Hupd
    by (vm_compute; reflexivity).
  assert (cart m' <> cart m) as Hne.
  { intros Heq. apply (f_equal (fun c : gmap Z Z => c !! 0)) in Heq.
    vm_compute in Heq. discriminate. }
  split; [exact Hupd|]. split; [exact Hne|].
  exact (cart_changed_by_quantity_keys m m' (KeyMsg "+") cmd_nil Hupd Hne).
Defined.

Lemma Update_frame_witness :
  let m := run two_items in
  let m' := run (two_items ++ [KeyMsg "s"]) in
  Update m (KeyMsg "s") = Some (m', cmd_nil) /\
  beverages m' = beverages m /\
  ((width m' <> width m \/ height m' <> height m) ->
   exists w h, KeyMsg "s" = WindowSizeMsg w h) /\
  (activeTab m' <> activeTab m ->
   KeyMsg "s" = KeyMsg "s" \/ KeyMsg "s" = KeyMsg "c").
Proof.
  intros m m'.
  assert (Update m (KeyMsg "s") = Some (m', cmd_nil)) as Hupd
    by (vm_compute; reflexivity).
  split; [exact Hupd|].
  exact (Update_frame m m' (KeyMsg "s") cmd_nil Hupd).
Defined.

Lemma increment_below_stock_witness :
  let m := run [KeyMsg "down"] in
  exists m',
    Update m (KeyMsg "=") = Some (m', cmd_nil) /\
    cart m' = <[table_Cursor (table m)
                := cart_get (cart m) (table_Cursor (table m)) + 1]> (cart m) /\
    table_Cursor (table m') = table_Cursor (table m) /\
    table_Rows (table m') = make_rows (beverages m) (cart m') /\
    activeTab m' = 0 /\ isCheckingOut m' = false.
Proof.
  intros m.
  apply (increment_below_stock m "=" (mkBeverage "Espresso" 1 50)).
  - apply reachable_run.
  - vm_compute. reflexivity.
  - in_keys.
  - vm_compute. reflexivity.
  - vm_compute. reflexivity.
Defined.

Lemma decrement_above_zero_witness :
  let m := run [KeyMsg "+"; KeyMsg "+"] in
  exists m',
    Update m (KeyMsg "left") = Some (m', cmd_nil) /\
    cart m' = <[table_Cursor (table m)
                := cart_get (cart m) (table_Cursor (table m)) - 1]> (cart m) /\
    table_Cursor (table m') = table_Cursor (table m) /\
    table_Rows (table m') = make_rows (beverages m) (cart m') /\
    activeTab m' = 0 /\ isCheckingOut m' = false.
Proof.
  intros m.
  apply (decrement_above_zero m "left").
  - apply reachable_run.
  - vm_compute. reflexivity.
  - in_keys.
  - vm_compute. reflexivity.
Defined.

Lemma repeated_increment_witness :
  let m := run [KeyMsg "down"; KeyMsg "down"] in
  let m' := steps (repeat (KeyMsg "right") 30) m in
  cart_get (cart m') (table_Cursor (table m))
  = Z.min (cart_get (cart m) (table_Cursor (table m)) + 30) 12 /\
  table_Cursor (table m') = table_Cursor (table m) /\ activeTab m' = 0.
Proof.
  intros m.
  apply (repeated_increment m "right" (mkBeverage "Fritz-Kola" 2 12) 30).
  - apply reachable_run.
  - vm_compute. reflexivity.
  - in_keys.
  - vm_compute. reflexivity.
Defined.

Lemma repeated_decrement_witness :
  let m := run (repeat (KeyMsg "+") 3) in
  let m' := steps (repeat (KeyMsg "-") 5) m in
  cart_get (cart m') (table_Cursor (table m))
  = Z.max (cart_get (cart m) (table_Cursor (table m)) - 5) 0 /\
  table_Cursor (table m') = table_Cursor (table m) /\ activeTab m' = 0.
Proof.
  intros m.
  apply (repeated_decrement m "-" 5).
  - apply reachable_run.
  - vm_compute. reflexivity.
  - in_keys.
Defined.

Lemma increment_decrement_round_trip_witness :
  let m := run [] in
  exists m1 m2,
    Update m (KeyMsg "+") = Some (m1, cmd_nil) /\
    Update m1 (KeyMsg "-") = Some (m2, cmd_nil) /\
    cart m2 = <[table_Cursor (table m)
                := cart_get (cart m) (table_Cursor (table m))]> (cart m) /\
    (forall j, cart_get (cart m2) j = cart_get (cart m) j) /\
    table_Rows (table m2) = table_Rows (table m) /\
    table_Cursor (table m2) = table_Cursor (table m).
Proof.
  intros m.
  apply (increment_decrement_round_trip m "+" "-"
           (mkBeverage "Club-Mate" 1.5 24)).
  - apply reachable_run.
  - vm_compute. reflexivity.
  - in_keys.
  - in_keys.
  - vm_compute. reflexivity.
  - vm_compute. reflexivity.
Defined.

Lemma reachable_rows_show_cart_witness :
  let m := run two_items in
  length (table_Rows (table m)) = length ourBeverages /\
  (forall i b, ourBeverages !! i = Some b ->
     table_Rows (table m) !! i
     = Some [ Name b; "€" +:+ Fmt.f2 (Price b); Fmt.d (Stock b);
              Fmt.d (cart_get (cart m) (Z.of_nat i)) ]) /\
  (activeTab m = 0 \/ activeTab m = 1).
Proof. intros m. apply (reachable_rows_show_cart m), reachable_run. Defined.

Lemma hasItems_loop_any_order_witness :
  hasItems_loop [(0, 2); (1, 1)] = hasItems_loop [(1, 1); (0, 2)] /\
  (hasItems_loop [(0, 2); (1, 1)] = true <->
   has_positive (cart (run two_items))).
Proof.
  apply (hasItems_loop_any_order (cart (run two_items))).
  - apply range_order_two_items_01.
  - apply range_order_two_items_10.
Defined.

Lemma cart_one_item : cart (run one_item) = {[ 0 := 0; 1 := 1 ]}.
Proof. vm_compute. reflexivity. Qed.

Lemma range_order_one_item_01 :
  range_order (cart (run one_item)) [(0, 0); (1, 1)].
Proof.
  unfold range_order. rewrite cart_one_item.
  apply NoDup_Permutation.
  - apply NoDup_cons. split; [|apply NoDup_singleton].
    intros Hin%list_elem_of_singleton. discriminate.
  - apply NoDup_map_to_list.
  - intros [k q]. rewrite elem_of_map_to_list.
    rewrite lookup_insert_Some, lookup_singleton_Some.
    rewrite elem_of_cons, list_elem_of_singleton.
    split.
    + intros [[= -> ->]|[= -> ->]]; [by left|by right].
    + intros [[<- <-]|[_ [<- <-]]]; [by left|by right].
Qed.

Lemma range_order_one_item_10 :
  range_order (cart (run one_item)) [(1, 1); (0, 0)].
Proof.
  unfold range_order. rewrite <- range_order_one_item_01. apply perm_swap.
Qed.

Lemma cartView_in_at_most_one_witness :
  let m := run one_item in
  cartView_in [(0, 0); (1, 1)] m = cartView_in [(1, 1); (0, 0)] m.
Proof.
  intros m. apply (cartView_in_at_most_one m).
  - apply range_order_one_item_01.
  - apply range_order_one_item_10.
  - intros i j qi qj. unfold m. rewrite cart_one_item.
    rewrite !lookup_insert_Some, !lookup_singleton_Some. lia.
Defined.

Lemma cartView_without_items_witness :
  let m := run emptied in
  cart m !! 0 = Some 0 /\
  cartView_in [(0, 0)] m = Some (cart_header +:+ cart_empty).
Proof.
  intros m. split; [vm_compute; reflexivity|].
  apply (cartView_without_items m).
  - unfold range_order, m. rewrite cart_emptied.
    by rewrite map_to_list_singleton.
  - unfold m. rewrite cart_emptied. intros (i & q & Hq & Hpos).
    apply lookup_singleton_Some in Hq. lia.
Defined.

Lemma cartView_zero_entries_witness :
  let m1 := run emptied in
  let m2 := run [KeyMsg "c"] in
  cart m1 <> cart m2 /\
  (cartView_returns m1 (cart_header +:+ cart_empty) <->
   cartView_returns m2 (cart_header +:+ cart_empty)).
Proof.
  intros m1 m2. split.
  - intros Heq. apply (f_equal (fun c : gmap Z Z => c !! 0)) in Heq.
    vm_compute in Heq. discriminate.
  - apply (cartView_zero_entries m1 m2).
    + reflexivity.
    + reflexivity.
    + intros j. unfold m1. rewrite cart_emptied.
      unfold cart_get. destruct (decide (j = 0)) as [->|Hj]; [reflexivity|].
      rewrite lookup_singleton_ne by done. reflexivity.
Defined.

Example cartView_three_items :
  cartView_in [(4, 3); (0, 1); (2, 2)] (run three_items)
  = Some "Your Current Order:

  3x Beer                 @ €2.50 each = €7.50
  1x Club-Mate            @ €1.50 each = €1.50
  2x Fritz-Kola           @ €2.00 each = €4.00

  -------------------------------------------
  Total: €13.00


Press 'enter' to checkout.".
Proof. vm_compute. reflexivity. Qed.

Lemma View_reachable_total_witness :
  let m := run three_items in
  is_Some (View_in (lip := plain_lipgloss) (map_to_list (cart m)) m).
Proof.
  intros m. apply (View_reachable_total m).
  - apply reachable_run.
  - unfold range_order. reflexivity.
Defined.

(** * The cart view against the page of the spec *)

Section AgainstExpected.

Context {tbl : Table}.

Lemma Expected_item bs i : Expected.item bs i = slice_index bs i.
Proof.
  unfold Expected.item, slice_index.
  case_decide; destruct (Z.leb_spec 0 i); (done || lia).
Qed.

Lemma Expected_has_items entries :
  Expected.has_items entries = hasItems_loop entries.
Proof.
  induction entries as [|[i q] rest IH]; [done|].
  cbn [Expected.has_items existsb hasItems_loop snd].
  fold (Expected.has_items rest). rewrite IH.
  case_bool_decide; destruct (Z.ltb_spec 0 q); (done || lia).
Qed.

Lemma Expected_price_halves b :
  b ∈ ourBeverages ->
  exists n d, Expected.price b = Qmake n d /\
              2 * n = price_halves b * Z.pos d.
Proof.
  intros Hb. unfold ourBeverages in Hb.
  repeat (apply elem_of_cons in Hb as [->|Hb]);
    [..|by apply elem_of_nil in Hb];
    (eexists _, _; split; [vm_compute; reflexivity|]);
    vm_compute; reflexivity.
Qed.

Lemma Expected_line_total_halves b q :
  b ∈ ourBeverages ->
  is_halves (Expected.line_total b q) (price_halves b * q).
Proof.
  intros Hb. destruct (Expected_price_halves b Hb) as (n & d & Hx & Hn).
  unfold is_halves, Expected.line_total. rewrite Hx.
  unfold Qmult, inject_Z. cbn [Qnum Qden]. rewrite Pos.mul_1_r.
  transitivity ((2 * n) * q); [|rewrite Hn]; ring.
Qed.

Lemma Expected_total_halves (l : list (Z * Z)) :
  is_halves (Expected.total ourBeverages l) (sumZ (entry_halves <$> l)).
Proof.
  induction l as [|[i q] l IH]; [done|].
  rewrite fmap_cons, sumZ_cons. cbn [Expected.total].
  unfold entry_halves. cbn [fst snd]. rewrite Expected_item.
  destruct (slice_index ourBeverages i) as [b|] eqn:Hb.
  - case_decide; destruct (Z.ltb_spec 0 q); try lia.
    + apply is_halves_plus; [|done].
      apply Expected_line_total_halves. by apply slice_index_elem in Hb.
    + by rewrite Z.add_0_l.
  - destruct (0 <? q); by rewrite Z.add_0_l.
Qed.

(** An amount of [k] halves is exact in hundredths: [50 * k] of them. *)
Lemma Expected_cents_halves x k :
  is_halves x k -> 0 <= k -> Expected.cents x = 50 * k /\ Expected.exact x.
Proof.
  unfold is_halves. intros Hx Hk.
  assert (100 * Qnum x = 50 * k * Z.pos (Qden x)) as Hn.
  { transitivity (50 * (2 * Qnum x)); [|rewrite Hx]; ring. }
  assert (Expected.cents x = 50 * k) as Hcents.
  { unfold Expected.cents. rewrite Hn, Z.mod_mul, Z.div_mul by lia.
    by destruct (Z.compare_spec (2 * 0) (Z.pos (Qden x))); try lia. }
  split; [done|].
  unfold Expected.exact. rewrite Hcents.
  unfold Qeq, Qmult, inject_Z. cbn [Qnum Qden]. lia.
Qed.

Lemma numerals_checked :
  forallb (fun k =>
     String.eqb (Fmt.show_signed (false, 50 * k)) (Expected.hundredths (50 * k)))
    (seqZ 0 351) = true.
Proof. vm_compute. reflexivity. Qed.

Lemma lines_checked :
  forallb (fun bq : Beverage * Z =>
     String.eqb (exact_cart_line bq.2 bq.1) (Expected.line bq.2 bq.1))
    catalog_quantities = true.
Proof. vm_compute. reflexivity. Qed.

Lemma Expected_numeral k :
  0 <= k <= 350 ->
  Fmt.show_signed (false, 50 * k) = Expected.hundredths (50 * k).
Proof.
  intros Hk. pose proof numerals_checked as Hall.
  rewrite forallb_forall in Hall. apply String.eqb_eq, Hall.
  apply list_elem_of_In, elem_of_seqZ. lia.
Qed.

Lemma Expected_line q b :
  b ∈ ourBeverages -> 1 <= q <= Stock b ->
  exact_cart_line q b = Expected.line q b.
Proof.
  intros Hb Hq. pose proof lines_checked as Hall.
  rewrite forallb_forall in Hall.
  apply String.eqb_eq, (Hall (b, q)), list_elem_of_In.
  by apply elem_of_catalog_quantities.
Qed.

(** The total that [cartView] writes for [k] halves is the numeral of the
    page for an exact amount of [k] halves. *)
Lemma Expected_money x k :
  is_halves x k -> 0 <= k <= 350 ->
  Fmt.show_signed (false, 50 * k) = Expected.money x.
Proof.
  intros Hx Hk. unfold Expected.money.
  destruct (Expected_cents_halves x k Hx) as [-> _]; [lia|].
  by apply Expected_numeral.
Qed.

(** The text around the lines and the total. *)
Lemma Expected_page (item_lines : string) (total_price : Q) (pending : bool)
    (shown : string) :
  shown = Expected.money total_price ->
  cart_header +:+ item_lines +:+ cart_separator +:+ cart_total shown
  +:+ (if pending then cart_confirm else cart_checkout_hint)
  = Expected.cart_view item_lines total_price pending.
Proof.
  intros ->. unfold Expected.cart_view.
  generalize (Expected.money total_price). intros shown.
  unfold cart_total. rewrite !string_app_assoc.
  destruct pending; vm_compute; reflexivity.
Qed.

Lemma Expected_empty_page : cart_header +:+ cart_empty = Expected.empty_view.
Proof. vm_compute. reflexivity. Qed.

Lemma Expected_lines (entries : list (Z * Z)) :
  Forall entry_ok entries ->
  exact_cart_lines ourBeverages entries = Expected.lines ourBeverages entries.
Proof.
  induction 1 as [|[i q] l He _ IH]; [done|].
  destruct He as (b & Hb & Hq).
  cbn [fst snd] in *. cbn [exact_cart_lines Expected.lines].
  rewrite Expected_item, Hb, IH.
  case_decide; destruct (Z.ltb_spec 0 q); try lia.
  - rewrite Expected_line; [done| |lia]. by apply slice_index_elem in Hb.
  - done.
Qed.

(** C9.  In a reachable state whose cart has exactly two entries with a
    non-zero quantity, whatever the order in which the cart is visited, the
    cart view is the page of the spec: the header, the two lines in either
    order, the separator, the total line and the closing hint.  Each line
    shows the product of price and quantity and the total line shows the sum
    of the two products, written with two decimals; the products and their
    sum are whole numbers of hundredths, so what is shown is the exact
    amount. *)
Theorem C9_two_entries_total (m : model) (i j qi qj : Z)
    (entries : list (Z * Z)) :
  reachable m ->
  i <> j -> cart m !! i = Some qi -> cart m !! j = Some qj ->
  qi <> 0 -> qj <> 0 ->
  (forall k q, cart m !! k = Some q -> q <> 0 -> k = i \/ k = j) ->
  range_order (cart m) entries ->
  exists bi bj lines,
    Expected.item (beverages m) i = Some bi /\
    Expected.item (beverages m) j = Some bj /\
    (lines = Expected.line qi bi +:+ Expected.line qj bj \/
     lines = Expected.line qj bj +:+ Expected.line qi bi) /\
    let total :=
      (Expected.line_total bi qi + Expected.line_total bj qj)%Q in
    Expected.exact (Expected.line_total bi qi) /\
    Expected.exact (Expected.line_total bj qj) /\
    Expected.exact total /\
    cartView_in entries m
    = Some (Expected.cart_view lines total (isCheckingOut m)).
Proof.
  intros Hreach Hij Hi Hj Hqi Hqj Honly Horder.
  destruct (cartView_two_entries m i j qi qj entries Hreach Hij Hi Hj
              Hqi Hqj Honly Horder)
    as (bi & bj & lines & Hbi & Hbj & Hlines & Hview).
  apply reachable_Inv in Hreach.
  assert (forall k q b, cart m !! k = Some q -> q <> 0 ->
            slice_index (beverages m) k = Some b ->
            b ∈ ourBeverages /\ 1 <= q <= Stock b /\
            1 <= price_halves b * q <= 100) as Hentry.
  { intros k q b Hk Hq Hb.
    destruct (inv_cart _ Hreach _ _ Hk) as (b' & Hb' & Hbound).
    assert (b' = b) as -> by congruence.
    rewrite (inv_beverages _ Hreach) in Hb.
    apply slice_index_elem in Hb.
    destruct (ourBeverages_elem b Hb) as (_ & Hh & Hcap & _).
    repeat split; try done; nia. }
  destruct (Hentry _ _ _ Hi Hqi Hbi) as (Hini & Hboundi & Hki).
  destruct (Hentry _ _ _ Hj Hqj Hbj) as (Hinj & Hboundj & Hkj).
  pose proof (Expected_line_total_halves bi qi Hini) as Hhi.
  pose proof (Expected_line_total_halves bj qj Hinj) as Hhj.
  pose proof (is_halves_plus _ _ _ _ Hhi Hhj) as Hhsum.
  exists bi, bj.
  exists (if decide (lines = exact_cart_line qi bi +:+ exact_cart_line qj bj)
          then Expected.line qi bi +:+ Expected.line qj bj
          else Expected.line qj bj +:+ Expected.line qi bi).
  rewrite !Expected_item. split; [done|]. split; [done|].
  split; [case_decide; [by left|by right]|].
  cbv zeta.
  split; [apply (Expected_cents_halves _ _ Hhi); lia|].
  split; [apply (Expected_cents_halves _ _ Hhj); lia|].
  split; [apply (Expected_cents_halves _ _ Hhsum); lia|].
  rewrite Hview. f_equal.
  assert (Fmt.Q2 (exact_line_total bi qi + exact_line_total bj qj)%Q
          = Expected.money
              (Expected.line_total bi qi + Expected.line_total bj qj)%Q)
    as Hshown.
  { unfold Fmt.Q2. rewrite exact_total_cents by (done || lia).
    apply Expected_money; [done|lia]. }
  rewrite (Expected_page lines _ (isCheckingOut m) _ Hshown).
  f_equal. case_decide as Hcase.
  - rewrite Hcase. by rewrite !Expected_line.
  - destruct Hlines as [Hl|Hl]; [done|].
    rewrite Hl. by rewrite !Expected_line.
Qed.

(** X17.  In a reachable state [cartView] never panics and, whatever the
    number of entries and the order in which they are visited, returns the
    page of the spec: with no positive quantity the empty-cart page;
    otherwise the header, one line per positive entry in the order visited,
    the separator, the total line and the closing hint.  The total line shows
    the sum of all the products of price and quantity with two decimals; that
    sum is a whole number of hundredths, so the floating-point accumulation
    shows the exact amount, and the same for every visiting order. *)
Theorem cartView_reachable_exact (m : model) (entries : list (Z * Z)) :
  reachable m -> range_order (cart m) entries ->
  let total := Expected.total (beverages m) (map_to_list (cart m)) in
  Expected.exact total /\
  cartView_in entries m
  = Some
      (if Expected.has_items (map_to_list (cart m)) then
         Expected.cart_view (Expected.lines (beverages m) entries) total
                            (isCheckingOut m)
       else Expected.empty_view).
Proof.
  intros Hreach Horder total.
  pose proof (cartView_reachable_lines m entries Hreach Horder) as Hview.
  apply reachable_Inv in Hreach.
  destruct (reachable_entries m entries Hreach Horder) as [Hok _].
  assert (range_order (cart m) (map_to_list (cart m))) as Hself
    by (by unfold range_order).
  destruct (reachable_entries m _ Hreach Hself) as [Hok' Hnodup'].
  pose proof (total_halves_bound _ Hok' Hnodup') as Hbound.
  pose proof (total_halves_nonneg _ Hok') as Hnonneg.
  unfold total. rewrite (inv_beverages _ Hreach) in *.
  pose proof (Expected_total_halves (map_to_list (cart m))) as Hhalves.
  split; [apply (Expected_cents_halves _ _ Hhalves); lia|].
  rewrite Hview, Expected_has_items. f_equal.
  destruct (hasItems_loop (map_to_list (cart m)));
    [|apply Expected_empty_page].
  rewrite <- (Expected_lines entries Hok).
  apply Expected_page. unfold Fmt.Q2.
  rewrite (is_halves_cents _ _ (exact_total_halves _) Hnonneg).
  by apply Expected_money.
Qed.

End AgainstExpected.

Example Expected_page_two_items :
  Expected.cart_view
    (Expected.line 1 (mkBeverage "Espresso" 1 50)
     +:+ Expected.line 2 (mkBeverage "Club-Mate" 1.5 24))
    (Expected.line_total (mkBeverage "Espresso" 1 50) 1
     + Expected.line_total (mkBeverage "Club-Mate" 1.5 24) 2)%Q
    false
  = "Your Current Order:

  1x Espresso             @ €1.00 each = €1.00
  2x Club-Mate            @ €1.50 each = €3.00

  -------------------------------------------
  Total: €4.00


Press 'enter' to checkout.".
Proof. vm_compute. reflexivity. Qed.

Lemma C9_two_entries_total_witness :
  let m := run two_items in
  exists bi bj lines,
    Expected.item (beverages m) 0 = Some bi /\
    Expected.item (beverages m) 1 = Some bj /\
    (lines = Expected.line 2 bi +:+ Expected.line 1 bj \/
     lines = Expected.line 1 bj +:+ Expected.line 2 bi) /\
    let total := (Expected.line_total bi 2 + Expected.line_total bj 1)%Q in
    Expected.exact (Expected.line_total bi 2) /\
    Expected.exact (Expected.line_total bj 1) /\
    Expected.exact total /\
    cartView_in [(1, 1); (0, 2)] m
    = Some (Expected.cart_view lines total (isCheckingOut m)).
Proof.
  intros m.
  apply (C9_two_entries_total m 0 1 2 1 [(1, 1); (0, 2)]).
  - apply reachable_run.
  - lia.
  - vm_compute. reflexivity.
  - vm_compute. reflexivity.
  - lia.
  - lia.
  - intros k q. unfold m. rewrite cart_two_items.
    rewrite lookup_insert_Some, lookup_singleton_Some.
    intros [[<- _]|[_ [<- _]]] _; [by left|by right].
  - apply range_order_two_items_10.
Defined.

Lemma cartView_reachable_exact_witness :
  let m := run three_items in
  let entries := map_to_list (cart m) in
  let total := Expected.total (beverages m) (map_to_list (cart m)) in
  Expected.exact total /\
  cartView_in entries m
  = Some
      (if Expected.has_items (map_to_list (cart m)) then
         Expected.cart_view (Expected.lines (beverages m) entries) total
                            (isCheckingOut m)
       else Expected.empty_view).
Proof.
  intros m entries. apply (cartView_reachable_exact m entries).
  - apply reachable_run.
  - unfold range_order, entries. reflexivity.
Defined.
